(** * A shallow embedding of the TGA decoder (src/index.ts)

    The decoder is a single pass over a [Uint8Array]: header reader,
    format classifier, color-map reader, pixel-data reader (with RLE
    expansion) and pixel translator.  The embedding keeps the source's
    function names and threads the shared read pointer explicitly.

    JavaScript numbers that occur in the decoder are integers well below
    2^53 (products of 16-bit and 8-bit header fields and sums of them), so
    they are modelled by [Z]; the 32-bit wrap-around of the bitwise
    operators is written out.  Typed-array allocation is assumed to succeed
    for every non-negative length. *)

From Stdlib Require Import ZArith Lia Bool.
From Stdlib Require Import Init.Byte.
From Stdlib Require Strings.Byte.
From stdpp Require Import base list.

Local Open Scope Z_scope.

(** ** JavaScript values and operators used by the decoder *)

Module JS.

(** The values the decoder computes with: [undefined] comes from reading a
    typed array out of range, [nan] from arithmetic on [undefined]. *)
Inductive jsval : Type :=
| undefined
| nan
| num (z : Z).

(** ToInt32, applied to both operands of every bitwise operator. *)
Definition wrap32 (z : Z) : Z := (z + 2 ^ 31) mod 2 ^ 32 - 2 ^ 31.

Definition toInt32 (v : jsval) : Z :=
  match v with
  | num z => wrap32 z
  | _ => 0
  end.

(** ToIntegerOrInfinity, applied to the arguments of [subarray]. *)
Definition toInteger (v : jsval) : Z :=
  match v with
  | num z => z
  | _ => 0
  end.

(** [a & b], [a | b], [a << k], [a >> k]. *)
Definition band (a b : jsval) : Z := Z.land (toInt32 a) (toInt32 b).
Definition bor (a b : jsval) : Z := Z.lor (toInt32 a) (toInt32 b).
Definition shl (a : jsval) (k : Z) : Z :=
  wrap32 (Z.shiftl (toInt32 a) (Z.land k 31)).
Definition sar (a : jsval) (k : Z) : Z :=
  Z.shiftr (toInt32 a) (Z.land k 31).

(** [a * b] and [a + b] where the left operand may be [undefined]. *)
Definition mul (a : jsval) (b : Z) : jsval :=
  match a with
  | num z => num (z * b)
  | _ => nan
  end.
Definition add (a : jsval) (b : Z) : jsval :=
  match a with
  | num z => num (z + b)
  | _ => nan
  end.

(** [!!n] for a number [n]. *)
Definition truthy (n : Z) : bool := negb (n =? 0).

End JS.

Import JS.
Coercion num : Z >-> jsval.

(** ** Typed arrays *)

Definition b2z (b : byte) : Z := Z.of_N (Byte.to_N b).

Definition byte_of_Z (z : Z) : byte :=
  match Byte.of_N (Z.to_N (z mod 256)) with
  | Some b => b
  | None => x00
  end.

(** Conversion of a stored value for a [Uint8Array] element. *)
Definition toUint8 (v : jsval) : byte :=
  match v with
  | num z => byte_of_Z z
  | _ => x00
  end.

(** Conversion of a stored value for a [Uint8ClampedArray] element. *)
Definition toUint8Clamp (v : jsval) : byte :=
  match v with
  | num z => byte_of_Z (Z.max 0 (Z.min 255 z))
  | _ => x00
  end.

(** [a[i]]: out of range reads give [undefined]. *)
Definition get (a : list byte) (i : Z) : jsval :=
  if i <? 0 then undefined
  else match a !! Z.to_nat i with
       | Some b => num (b2z b)
       | None => undefined
       end.

(** [a[i] = b]: out of range writes are ignored. *)
Definition put (a : list byte) (i : Z) (b : byte) : list byte :=
  if i <? 0 then a else <[Z.to_nat i := b]> a.

(** Index of an array literal such as [pixel[0]]. *)
Definition item (a : list jsval) (i : nat) : jsval :=
  match a !! i with
  | Some v => v
  | None => undefined
  end.

Definition clampIndex (len rel : Z) : Z :=
  if rel <? 0 then Z.max (len + rel) 0 else Z.min rel len.

(** [a.subarray(begin, end)]: both bounds are clamped to the array. *)
Definition subarray (a : list byte) (b e : jsval) : list byte :=
  let len := Z.of_nat (length a) in
  let bi := clampIndex len (toInteger b) in
  let ei := clampIndex len (toInteger e) in
  take (Z.to_nat (Z.max (ei - bi) 0)) (drop (Z.to_nat bi) a).

(** ** Errors and outcomes *)

Inductive error : Type :=
| NotEnoughData (start end_ : Z)
    (* Error: No enough data to read from start to end. *)
| UnsupportedPixelSizeTrueColor (pixelSize : Z)
    (* Error: Unsupported pixel size: n for true-color image. *)
| UnsupportedPixelSize (pixelSize : Z)
    (* Error: Unsupported pixel size: n. *)
| UnsupportedColorMapEntrySize (entrySize : Z)
    (* Error: Unsupported color map entry size: n. *)
| NullColorMap
    (* TypeError: colorMap is null *)
| OffsetOutOfBounds
    (* RangeError thrown by TypedArray.prototype.set *)
| InvalidArrayLength.
    (* RangeError thrown by a typed-array constructor *)

(** [Ok] is a normal return, [Throw] an exception; [Fuel] marks a [while]
    loop cut off by the bound of the model (shown below never to happen). *)
Inductive outcome (A : Type) : Type :=
| Ok (a : A)
| Throw (e : error)
| Fuel.
Arguments Ok {A} a.
Arguments Throw {A} e.
Arguments Fuel {A}.

(** Sequencing of statements that may throw, with stdpp's notation
    [x ← m; k]. *)
#[global] Instance outcome_bind : MBind outcome :=
  fun A B (k : A -> outcome B) (m : outcome A) =>
    match m with
    | Ok a => k a
    | Throw e => Throw e
    | Fuel => Fuel
    end.

(** [target.set(source, offset)]. *)
Definition typed_set (target source : list byte) (offset : Z) : outcome (list byte) :=
  if (offset <? 0) || (Z.of_nat (length target) <? Z.of_nat (length source) + offset)
  then Throw OffsetOutOfBounds
  else Ok (take (Z.to_nat offset) target ++ source
           ++ drop (Z.to_nat offset + length source) target).

(** [new Uint8Array(n)] and [new Uint8ClampedArray(n)].  Only the range
    error for a negative length is modelled: an engine also refuses a length
    it cannot allocate, which no function of the decoder can observe
    otherwise.  Results that say the decoder returns, or name the error it
    throws, therefore bound the length of the arrays by the size of the
    input buffer. *)
Definition new_array (n : Z) : outcome (list byte) :=
  if n <? 0 then Throw InvalidArrayLength
  else Ok (replicate (Z.to_nat n) x00).

(** ** Header and format descriptor *)

Record TgaHeader : Type := {
  idLength : Z;
  colorMapType : Z;
  imageType : Z;
  colorMapStart : Z;
  colorMapLength : Z;
  colorMapEntryDepth : Z;
  xOrigin : Z;
  yOrigin : Z;
  width : Z;
  height : Z;
  pixelDepth : Z;
  descriptor : Z
}.

(** [TgaInfo extends TgaHeader]: the header fields are copied by the spread
    [...header] and kept here as [hdr]. *)
Record TgaInfo : Type := {
  hdr : TgaHeader;
  isIndexed : bool;
  isGrey : bool;
  isRle : bool;
  pixelSize : Z;
  pixelCount : Z;
  colorMapEntrySize : Z;
  alphaDepth : Z
}.

Module IMAGE_TYPE.
Definition NO_DATA : Z := 0.
Definition INDEXED : Z := 1.
Definition RGB : Z := 2.
Definition GREY : Z := 3.
Definition RLE_INDEXED : Z := 9.
Definition RLE_RGB : Z := 10.
Definition RLE_GREY : Z := 11.
End IMAGE_TYPE.

(** ** readItem *)

(** The loop [for (i = end - 1; i >= start; i--)], run [n] times. *)
Fixpoint readItem_loop (data : list byte) (n : nat) (i : Z) (result : Z) : Z :=
  match n with
  | O => result
  | S n' => readItem_loop data n' (i - 1) (bor (shl result 8) (get data i))
  end.

Definition readItem (data : list byte) (pointer : Z) (length_ : Z) : outcome (Z * Z) :=
  let start := pointer in
  let end_ := start + length_ in
  if Z.of_nat (length data) <? end_ then Throw (NotEnoughData start end_)
  else Ok (readItem_loop data (Z.to_nat (end_ - start)) (end_ - 1) 0, end_).

(** ** readHeader *)

Definition normalizeEntryDepth (h : TgaHeader) : TgaHeader :=
  if colorMapEntryDepth h =? 15 then
    {| idLength := idLength h; colorMapType := colorMapType h;
       imageType := imageType h; colorMapStart := colorMapStart h;
       colorMapLength := colorMapLength h; colorMapEntryDepth := 16;
       xOrigin := xOrigin h; yOrigin := yOrigin h;
       width := width h; height := height h;
       pixelDepth := pixelDepth h; descriptor := descriptor h |}
  else h.

Definition readHeader (data : list byte) (pointer : Z) : outcome (TgaHeader * Z) :=
  '(idLength, p) ← readItem data pointer 1;
  '(colorMapType, p) ← readItem data p 1;
  '(imageType, p) ← readItem data p 1;
  '(colorMapStart, p) ← readItem data p 2;
  '(colorMapLength, p) ← readItem data p 2;
  '(colorMapEntryDepth, p) ← readItem data p 1;
  '(xOrigin, p) ← readItem data p 2;
  '(yOrigin, p) ← readItem data p 2;
  '(width, p) ← readItem data p 2;
  '(height, p) ← readItem data p 2;
  '(pixelDepth, p) ← readItem data p 1;
  '(descriptor, p) ← readItem data p 1;
  let header :=
    {| idLength := idLength; colorMapType := colorMapType;
       imageType := imageType; colorMapStart := colorMapStart;
       colorMapLength := colorMapLength;
       colorMapEntryDepth := colorMapEntryDepth;
       xOrigin := xOrigin; yOrigin := yOrigin;
       width := width; height := height;
       pixelDepth := pixelDepth; descriptor := descriptor |} in
  Ok (normalizeEntryDepth header, p).

(** ** createTgaInfo *)

Definition createTgaInfo (header : TgaHeader) : TgaInfo :=
  {| hdr := header;
     isIndexed := (imageType header =? 1) || (imageType header =? 9);
     isGrey := truthy (band (imageType header) IMAGE_TYPE.GREY);
     isRle := truthy (sar (imageType header) 3);
     pixelSize := sar (pixelDepth header) 3;
     pixelCount := width header * height header;
     colorMapEntrySize := sar (colorMapEntryDepth header) 3;
     alphaDepth := band (descriptor header) 15 |}.

(** ** readColorMap *)

(** Returns the color map ([None] is [null]) and the new pointer. *)
Definition readColorMap (data : list byte) (info : TgaInfo) (pointer : Z)
  : option (list byte) * Z :=
  if negb (truthy (colorMapType (hdr info))) then (None, pointer)
  else
    let entrySize := sar (colorMapEntryDepth (hdr info)) 3 in
    let byteCount := colorMapLength (hdr info) * entrySize in
    (Some (subarray data pointer (pointer + byteCount)), pointer + byteCount).

(** ** readImageData *)

(** [for (i = 0; i < pixelCount; i++) { result.set(pixel, current);
    current += pixelSize; }] *)
Fixpoint copy_pixels (pixel : list byte) (pixelSize : Z) (n : nat)
    (result : list byte) (current : Z) : outcome (list byte * Z) :=
  match n with
  | O => Ok (result, current)
  | S n' =>
      result' ← typed_set result pixel current;
      copy_pixels pixel pixelSize n' result' (current + pixelSize)
  end.

(** [for (i = 0; i < byteCount; i += 1) result[current++] = data[pointer.value++]] *)
Fixpoint copy_bytes (data : list byte) (n : nat)
    (result : list byte) (current pointer : Z) : list byte * Z * Z :=
  match n with
  | O => (result, current, pointer)
  | S n' =>
      copy_bytes data n' (put result current (toUint8 (get data pointer)))
        (current + 1) (pointer + 1)
  end.

(** The packet loop [while (current < totalByteCount)], cut off after [fuel]
    packets. *)
Fixpoint rle_loop (fuel : nat) (data : list byte) (pixelSize totalByteCount : Z)
    (result : list byte) (current pointer : Z) : outcome (list byte * Z) :=
  if current <? totalByteCount then
    match fuel with
    | O => Fuel
    | S fuel' =>
        let header := get data pointer in
        let pointer := pointer + 1 in
        let type := sar (band header 128) 7 in
        let pixelCount := band header 127 + 1 in
        if type =? 1 then
          let pixel := subarray data pointer (pointer + pixelSize) in
          let pointer := pointer + pixelSize in
          '(result, current) ← copy_pixels pixel pixelSize (Z.to_nat pixelCount) result current;
          rle_loop fuel' data pixelSize totalByteCount result current pointer
        else
          let byteCount := pixelCount * pixelSize in
          let '(result, current, pointer) :=
            copy_bytes data (Z.to_nat byteCount) result current pointer in
          rle_loop fuel' data pixelSize totalByteCount result current pointer
    end
  else Ok (result, pointer).

(** Returns the raw pixel buffer and the new pointer.  Every packet of the
    RLE loop produces at least one byte when it runs at all, so
    [totalByteCount] packets are enough. *)
Definition readImageData (data : list byte) (info : TgaInfo) (pointer : Z)
  : outcome (list byte * Z) :=
  let totalByteCount := pixelCount info * pixelSize info in
  if negb (isRle info) then
    Ok (subarray data pointer (pointer + totalByteCount), pointer + totalByteCount)
  else
    result ← new_array totalByteCount;
    rle_loop (Z.to_nat totalByteCount) data (pixelSize info) totalByteCount
      result 0 pointer.

(** ** Pixel translation *)

Definition getColorFrom1ByteEntry (entry : list byte) : list jsval :=
  [get entry 0; get entry 0; get entry 0; num 255].

Definition getColorFrom2ByteEntry (entry : list byte) : list jsval :=
  let value := bor (shl (get entry 1) 8) (get entry 0) in
  let r := sar (band value 31744) 10 in
  let g := sar (band value 992) 5 in
  let b := sar (band value 31) 0 in
  [num (bor (shl r 3) (sar r 2));
   num (bor (shl g 3) (sar g 2));
   num (bor (shl b 3) (sar b 2));
   num 255].

Definition getGreyColorFrom2ByteEntry (entry : list byte) (alphaDepth : Z) : list jsval :=
  [get entry 0; get entry 0; get entry 0;
   if alphaDepth =? 8 then get entry 1 else num 255].

Definition getColorFrom3ByteEntry (entry : list byte) : list jsval :=
  [get entry 2; get entry 1; get entry 0; num 255].

Definition getColorFrom4ByteEntry (entry : list byte) (alphaDepth : Z) : list jsval :=
  let alpha := if alphaDepth =? 8 then get entry 3 else num 255 in
  [get entry 2; get entry 1; get entry 0; alpha].

(** [colorMap] is [None] when the source passes [null] through [colorMap!]. *)
Definition getColorMapPixel (info : TgaInfo) (colorMap : option (list byte))
    (index : jsval) : outcome (list jsval) :=
  let start := mul index (colorMapEntrySize info) in
  match colorMap with
  | None => Throw NullColorMap
  | Some colorMap =>
      let entry := subarray colorMap start (add start (colorMapEntrySize info)) in
      match colorMapEntrySize info with
      | 2 => Ok (getColorFrom2ByteEntry entry)
      | 3 => Ok (getColorFrom3ByteEntry entry)
      | 4 => Ok (getColorFrom4ByteEntry entry (alphaDepth info))
      | n => Throw (UnsupportedColorMapEntrySize n)
      end
  end.

Definition getPixel (info : TgaInfo) (imageData : list byte)
    (colorMap : option (list byte)) (index : Z) : outcome (list jsval) :=
  let start := index * pixelSize info in
  let entry := subarray imageData start (start + pixelSize info) in
  match pixelSize info with
  | 1 =>
      if isIndexed info then getColorMapPixel info colorMap (get entry 0)
      else if isGrey info then Ok (getColorFrom1ByteEntry entry)
      else Throw (UnsupportedPixelSizeTrueColor (pixelSize info))
  | 2 =>
      if isIndexed info then
        let word := bor (shl (get entry 1) 8) (get entry 0) in
        getColorMapPixel info colorMap word
      else if isGrey info then Ok (getGreyColorFrom2ByteEntry entry (alphaDepth info))
      else Ok (getColorFrom2ByteEntry entry)
  | 3 => Ok (getColorFrom3ByteEntry entry)
  | 4 => Ok (getColorFrom4ByteEntry entry (alphaDepth info))
  | n => Throw (UnsupportedPixelSize n)
  end.

(** The loop [for (i = 0; i < pixelCount; i++)] of [parseImageData], with
    [n] iterations left. *)
Fixpoint parse_loop (info : TgaInfo) (imageData : list byte)
    (colorMap : option (list byte)) (n : nat) (i : Z) (displayData : list byte)
  : outcome (list byte) :=
  match n with
  | O => Ok displayData
  | S n' =>
      pixel ← getPixel info imageData colorMap i;
      let start := i * 4 in
      let displayData := put displayData start (toUint8Clamp (item pixel 0)) in
      let displayData := put displayData (start + 1) (toUint8Clamp (item pixel 1)) in
      let displayData := put displayData (start + 2) (toUint8Clamp (item pixel 2)) in
      let displayData := put displayData (start + 3) (toUint8Clamp (item pixel 3)) in
      parse_loop info imageData colorMap n' (i + 1) displayData
  end.

Definition parseImageData (info : TgaInfo) (imageData : list byte)
    (colorMap : option (list byte)) : outcome (list byte) :=
  displayData ← new_array (pixelCount info * 4);
  parse_loop info imageData colorMap (Z.to_nat (pixelCount info)) 0 displayData.

(** ** parseTgaData *)

Module Image.
Record t : Type := {
  imageData : list byte;
  width : Z;
  height : Z
}.
End Image.

Definition parseTgaData (data : list byte) : outcome Image.t :=
  '(header, pointer) ← readHeader data 0;
  let info := createTgaInfo header in
  let pointer := pointer + idLength header in
  let '(colorMap, pointer) := readColorMap data info pointer in
  '(rawImageData, pointer) ← readImageData data info pointer;
  displayData ← parseImageData info rawImageData colorMap;
  Ok {| Image.imageData := displayData;
        Image.width := width (hdr info);
        Image.height := height (hdr info) |}.

(** ** Reference definitions used in the statements *)

(** The little-endian value of the format: the sum of [byte[start+i] << 8*i]
    over the [n] bytes of the field. *)
Fixpoint littleEndian (data : list byte) (start : Z) (n : nat) : Z :=
  match n with
  | O => 0
  | S n' => toInteger (get data start) + 256 * littleEndian data (start + 1) n'
  end.

(** Offsets of the header fields: start and end of each, in reading order. *)
Definition header_fields : list (Z * Z) :=
  [(0, 1); (1, 2); (2, 3); (3, 5); (5, 7); (7, 8);
   (8, 10); (10, 12); (12, 14); (14, 16); (16, 17); (17, 18)].

(** The first header field, in reading order, that a buffer of [len] bytes
    does not hold completely. *)
Definition first_missing_field (len : Z) : option (Z * Z) :=
  find (fun field => len <? snd field) header_fields.

(** The header record as the bytes give it, before any normalization. *)
Definition raw_header (data : list byte) : TgaHeader :=
  {| idLength := littleEndian data 0 1;
     colorMapType := littleEndian data 1 1;
     imageType := littleEndian data 2 1;
     colorMapStart := littleEndian data 3 2;
     colorMapLength := littleEndian data 5 2;
     colorMapEntryDepth := littleEndian data 7 1;
     xOrigin := littleEndian data 8 2;
     yOrigin := littleEndian data 10 2;
     width := littleEndian data 12 2;
     height := littleEndian data 14 2;
     pixelDepth := littleEndian data 16 1;
     descriptor := littleEndian data 17 1 |}.

(** A header with another image type code. *)
Definition with_imageType (h : TgaHeader) (t : Z) : TgaHeader :=
  {| idLength := idLength h; colorMapType := colorMapType h;
     imageType := t; colorMapStart := colorMapStart h;
     colorMapLength := colorMapLength h;
     colorMapEntryDepth := colorMapEntryDepth h;
     xOrigin := xOrigin h; yOrigin := yOrigin h;
     width := width h; height := height h;
     pixelDepth := pixelDepth h; descriptor := descriptor h |}.


(** The 5-bit channel of a 5-5-5 word that starts at bit [shift], and its
    expansion to 8 bits. *)
Definition channel5 (w shift : Z) : Z := Z.land (Z.shiftr w shift) 31.
Definition expand5 (v : Z) : Z := Z.lor (Z.shiftl v 3) (Z.shiftr v 2).

(** The two parts of a packet header byte: the high bit selects a
    run-length packet, the low seven bits plus one count its pixels. *)
Definition is_rle_packet (h : byte) : bool := Z.testbit (b2z h) 7.
Definition packet_count (h : byte) : Z := Z.land (b2z h) 127 + 1.

(** [expands pixelSize stream out]: the packet stream [stream] stands for the
    bytes [out].  A run-length packet is a header byte and one pixel, written
    [packet_count] times; a raw packet is a header byte and
    [packet_count * pixelSize] bytes, copied as they are. *)
Inductive expands (pixelSize : Z) : list byte -> list byte -> Prop :=
| expands_nil : expands pixelSize [] []
| expands_rle (h : byte) (pixel rest out : list byte) :
    is_rle_packet h = true ->
    Z.of_nat (length pixel) = pixelSize ->
    expands pixelSize rest out ->
    expands pixelSize (h :: pixel ++ rest)
      (mjoin (replicate (Z.to_nat (packet_count h)) pixel) ++ out)
| expands_raw (h : byte) (bytes rest out : list byte) :
    is_rle_packet h = false ->
    Z.of_nat (length bytes) = packet_count h * pixelSize ->
    expands pixelSize rest out ->
    expands pixelSize (h :: bytes ++ rest) (bytes ++ out).

(** Two buffers of the same length that hold the same bytes from index [k] on. *)
Definition agree_from (k : nat) (a b : list byte) : Prop :=
  length a = length b /\ forall i : nat, (k <= i)%nat -> a !! i = b !! i.

(** Pixels of three bytes, blue, green, red, turned into pixels of four
    bytes, red, green, blue and alpha 255. *)
Fixpoint bgr_to_rgba (pixels : list byte) : list byte :=
  match pixels with
  | b :: g :: r :: rest => r :: g :: b :: xff :: bgr_to_rgba rest
  | _ => []
  end.

(** Two format descriptors that agree in everything the readers and the
    pixel translator look at: all derived fields, and of the header the image
    id length, the color-map type, length and entry depth, and the width and
    height. *)
Definition same_format (a b : TgaInfo) : Prop :=
  isIndexed a = isIndexed b /\ isGrey a = isGrey b /\ isRle a = isRle b /\
  pixelSize a = pixelSize b /\ pixelCount a = pixelCount b /\
  colorMapEntrySize a = colorMapEntrySize b /\ alphaDepth a = alphaDepth b /\
  idLength (hdr a) = idLength (hdr b) /\
  colorMapType (hdr a) = colorMapType (hdr b) /\
  colorMapLength (hdr a) = colorMapLength (hdr b) /\
  colorMapEntryDepth (hdr a) = colorMapEntryDepth (hdr b) /\
  width (hdr a) = width (hdr b) /\ height (hdr a) = height (hdr b).

(** A header with another image type code and pixel depth. *)
Definition with_type_and_depth (h : TgaHeader) (t d : Z) : TgaHeader :=
  {| idLength := idLength h; colorMapType := colorMapType h;
     imageType := t; colorMapStart := colorMapStart h;
     colorMapLength := colorMapLength h;
     colorMapEntryDepth := colorMapEntryDepth h;
     xOrigin := xOrigin h; yOrigin := yOrigin h;
     width := width h; height := height h;
     pixelDepth := d; descriptor := descriptor h |}.

(** ** Sample inputs *)

(** An 18-byte header with no image id and no color map. *)
Definition header_bytes (imageType widthLo heightLo pixelDepth descriptor : byte)
  : list byte :=
  [x00; x00; imageType; x00; x00; x00; x00; x00; x00; x00; x00; x00;
   widthLo; x00; heightLo; x00; pixelDepth; descriptor].

(** An 18-byte header of a color-mapped image of one pixel with one byte per
    pixel, with a color map of [colorMapLength] entries of three bytes. *)
Definition indexed_header_bytes (colorMapStartLo colorMapStartHi colorMapLength : byte)
  : list byte :=
  [x00; x01; x01; colorMapStartLo; colorMapStartHi; colorMapLength; x00; x18;
   x00; x00; x00; x00; x01; x00; x01; x00; x08; x00].

(** The format descriptor of a run-length encoded grey image with one byte
    per pixel and [n] pixels in one row. *)
Definition rle_grey8_info (n : Z) : TgaInfo :=
  createTgaInfo
    {| idLength := 0; colorMapType := 0; imageType := IMAGE_TYPE.RLE_GREY;
       colorMapStart := 0; colorMapLength := 0; colorMapEntryDepth := 0;
       xOrigin := 0; yOrigin := 0; width := n; height := 1;
       pixelDepth := 8; descriptor := 0 |}.

(** The format descriptor of an uncompressed image with two bytes per pixel
    whose type code has both low bits clear. *)
Definition plain16_info : TgaInfo :=
  createTgaInfo
    {| idLength := 0; colorMapType := 0; imageType := IMAGE_TYPE.NO_DATA;
       colorMapStart := 0; colorMapLength := 0; colorMapEntryDepth := 0;
       xOrigin := 0; yOrigin := 0; width := 1; height := 1;
       pixelDepth := 16; descriptor := 0 |}.

(** The format descriptor of a color-mapped image with one byte per pixel
    and color-map entries of three bytes. *)
Definition indexed24_info : TgaInfo :=
  createTgaInfo
    {| idLength := 0; colorMapType := 1; imageType := IMAGE_TYPE.INDEXED;
       colorMapStart := 0; colorMapLength := 1; colorMapEntryDepth := 24;
       xOrigin := 0; yOrigin := 0; width := 1; height := 1;
       pixelDepth := 8; descriptor := 0 |}.

(** The format descriptor of a color-mapped image with three bytes per
    pixel. *)
Definition indexed_bgr24_info : TgaInfo :=
  createTgaInfo
    {| idLength := 0; colorMapType := 1; imageType := IMAGE_TYPE.INDEXED;
       colorMapStart := 0; colorMapLength := 1; colorMapEntryDepth := 24;
       xOrigin := 0; yOrigin := 0; width := 2; height := 1;
       pixelDepth := 24; descriptor := 0 |}.

(** The format descriptor of a true-color image with four bytes per pixel
    and an alpha depth of [alpha] bits. *)
Definition bgra32_info (alpha : Z) : TgaInfo :=
  createTgaInfo
    {| idLength := 0; colorMapType := 0; imageType := IMAGE_TYPE.RGB;
       colorMapStart := 0; colorMapLength := 0; colorMapEntryDepth := 0;
       xOrigin := 0; yOrigin := 0; width := 1; height := 1;
       pixelDepth := 32; descriptor := alpha |}.

(** The format descriptor of a grey image with two bytes per pixel and an
    alpha depth of 8 bits. *)
Definition grey16_info : TgaInfo :=
  createTgaInfo
    {| idLength := 0; colorMapType := 0; imageType := IMAGE_TYPE.GREY;
       colorMapStart := 0; colorMapLength := 0; colorMapEntryDepth := 0;
       xOrigin := 0; yOrigin := 0; width := 1; height := 1;
       pixelDepth := 16; descriptor := 8 |}.

(** * Properties *)

(** ** Bytes and 32-bit operators *)

Lemma b2z_range (b : byte) : 0 <= b2z b < 256.
Proof.
  unfold b2z. pose proof (Byte.to_N_bounded b). lia.
Qed.

Lemma wrap32_small (z : Z) : - 2 ^ 31 <= z < 2 ^ 31 -> wrap32 z = z.
Proof.
  intros Hz. unfold wrap32. rewrite Z.mod_small; lia.
Qed.

Lemma land_range (a m : Z) : 0 <= m -> 0 <= Z.land a m <= m.
Proof.
  intros Hm.
  assert (0 <= Z.land a m) by (apply Z.land_nonneg; now right).
  assert (0 <= Z.land (Z.lnot a) m) by (apply Z.land_nonneg; now right).
  assert (Hx : Z.land a m + Z.land (Z.lnot a) m = m).
  { rewrite Z.add_nocarry_lor.
    - rewrite <- Z.land_lor_distr_l.
      rewrite Z.lor_lnot_diag. apply Z.land_m1_l.
    - rewrite (Z.land_comm (Z.lnot a) m), Z.land_assoc.
      rewrite <- (Z.land_assoc a m m), Z.land_diag.
      rewrite (Z.land_comm a m), <- Z.land_assoc.
      rewrite Z.land_lnot_diag. apply Z.land_0_r. }
  lia.
Qed.

Lemma lor_shiftl_low (a b n : Z) :
  0 <= n -> 0 <= b < 2 ^ n -> Z.lor (Z.shiftl a n) b = a * 2 ^ n + b.
Proof.
  intros Hn Hb. rewrite <- Z.shiftl_mul_pow2 by assumption.
  symmetry. apply Z.add_nocarry_lor.
  apply Z.bits_inj'. intros k Hk.
  rewrite Z.land_spec, Z.bits_0.
  destruct (Z.lt_ge_cases k n) as [Hlt|Hge].
  - rewrite Z.shiftl_spec_low by assumption. reflexivity.
  - destruct (Z.eq_dec b 0) as [->|Hb0].
    + rewrite Z.bits_0. apply andb_false_r.
    + rewrite (Z.bits_above_log2 b k); [apply andb_false_r|lia|].
      apply Z.lt_le_trans with n; [|assumption].
      apply Z.log2_lt_pow2; lia.
Qed.

(** The operators on operands that stay within 32 bits. *)
Lemma bor_shl8 (hi lo : Z) :
  0 <= hi < 256 -> 0 <= lo < 256 -> bor (shl hi 8) lo = hi * 256 + lo.
Proof.
  intros Hhi Hlo. unfold bor, shl, toInt32.
  change (Z.land 8 31) with 8.
  rewrite (wrap32_small hi), (wrap32_small lo) by lia.
  assert (E : Z.shiftl hi 8 = hi * 256) by (now rewrite Z.shiftl_mul_pow2 by lia).
  rewrite !(wrap32_small (Z.shiftl hi 8)) by lia.
  rewrite lor_shiftl_low; change (2 ^ 8) with 256; lia.
Qed.

(** ** Typed-array reads and slices *)

Lemma get_lookup (a : list byte) (i : nat) :
  get a (Z.of_nat i) =
  match a !! i with Some b => num (b2z b) | None => undefined end.
Proof.
  unfold get. destruct (Z.ltb_spec (Z.of_nat i) 0); [lia|].
  rewrite Nat2Z.id. reflexivity.
Qed.

(** A slice that starts at or after the end of the array is empty. *)
Lemma subarray_past_end (a : list byte) (s e : Z) :
  Z.of_nat (length a) <= s -> 0 <= s -> subarray a s e = [].
Proof.
  intros Hs Hs0. unfold subarray, clampIndex, toInteger.
  destruct (Z.ltb_spec s 0); [lia|].
  rewrite (Z.min_r s) by lia.
  rewrite drop_ge by lia. apply take_nil.
Qed.

(** A slice that lies within the array. *)
Lemma subarray_inside (a : list byte) (s n : Z) :
  0 <= s -> 0 <= n -> s + n <= Z.of_nat (length a) ->
  subarray a s (s + n) = take (Z.to_nat n) (drop (Z.to_nat s) a).
Proof.
  intros Hs Hn Hlen. unfold subarray, clampIndex, toInteger.
  destruct (Z.ltb_spec s 0); [lia|].
  destruct (Z.ltb_spec (s + n) 0); [lia|].
  rewrite !Z.min_l by lia.
  f_equal. lia.
Qed.

(** Reading through a slice is reading the array at the shifted index,
    also where the slice was cut short by the end of the array. *)
Lemma get_subarray (a : list byte) (s n k : Z) :
  0 <= s -> 0 <= k < n -> get (subarray a s (s + n)) k = get a (s + k).
Proof.
  intros Hs Hk. unfold get, subarray, clampIndex, toInteger.
  destruct (Z.ltb_spec k 0); [lia|].
  destruct (Z.ltb_spec s 0); [lia|].
  destruct (Z.ltb_spec (s + n) 0); [lia|].
  destruct (Z.ltb_spec (s + k) 0); [lia|].
  rewrite lookup_take.
  destruct (decide _) as [Hlt|Hge].
  - rewrite lookup_drop.
    replace (Z.to_nat (Z.min s (Z.of_nat (length a))) + Z.to_nat k)%nat
      with (Z.to_nat (s + k)) by lia.
    reflexivity.
  - rewrite (proj2 (lookup_ge_None a (Z.to_nat (s + k)))); [reflexivity|lia].
Qed.

(** ** readItem *)

Lemma readItem_truncated (data : list byte) (pointer length_ : Z) :
  Z.of_nat (length data) < pointer + length_ ->
  readItem data pointer length_ = Throw (NotEnoughData pointer (pointer + length_)).
Proof.
  intros H. unfold readItem.
  destruct (Z.ltb_spec (Z.of_nat (length data)) (pointer + length_)); [reflexivity|lia].
Qed.

Lemma readItem_fits (data : list byte) (pointer length_ : Z) :
  pointer + length_ <= Z.of_nat (length data) ->
  readItem data pointer length_ =
  Ok (readItem_loop data (Z.to_nat length_) (pointer + length_ - 1) 0,
      pointer + length_).
Proof.
  intros H. unfold readItem.
  destruct (Z.ltb_spec (Z.of_nat (length data)) (pointer + length_)); [lia|].
  do 3 f_equal. lia.
Qed.

Lemma get_in_range (data : list byte) (i : Z) :
  0 <= i < Z.of_nat (length data) -> exists b, get data i = num (b2z b).
Proof.
  intros Hi. unfold get. destruct (Z.ltb_spec i 0); [lia|].
  destruct (data !! Z.to_nat i) as [b|] eqn:E; [now exists b|].
  apply lookup_ge_None in E. lia.
Qed.

Lemma readItem_1 (data : list byte) (pointer : Z) :
  0 <= pointer -> pointer + 1 <= Z.of_nat (length data) ->
  readItem data pointer 1 = Ok (littleEndian data pointer 1, pointer + 1).
Proof.
  intros H0 H. rewrite readItem_fits by assumption.
  destruct (get_in_range data pointer) as [b Hb]; [lia|].
  simpl. replace (pointer + 1 - 1) with pointer by lia. rewrite Hb.
  pose proof (b2z_range b).
  change (num (shl 0 8)) with (num (shl 0 8)).
  replace (shl 0 8) with 0 by reflexivity.
  unfold bor, toInt32. rewrite !wrap32_small by lia.
  simpl toInteger. rewrite Z.lor_0_l. do 2 f_equal. lia.
Qed.

Lemma readItem_2 (data : list byte) (pointer : Z) :
  0 <= pointer -> pointer + 2 <= Z.of_nat (length data) ->
  readItem data pointer 2 = Ok (littleEndian data pointer 2, pointer + 2).
Proof.
  intros H0 H. rewrite readItem_fits by assumption.
  destruct (get_in_range data pointer) as [lo Hlo]; [lia|].
  destruct (get_in_range data (pointer + 1)) as [hi Hhi]; [lia|].
  simpl. replace (pointer + 2 - 1) with (pointer + 1) by lia.
  replace (pointer + 1 - 1) with pointer by lia.
  rewrite Hlo, Hhi. simpl toInteger.
  pose proof (b2z_range lo). pose proof (b2z_range hi).
  replace (shl 0 8) with 0 by reflexivity.
  assert (E : bor 0 (b2z hi) = b2z hi).
  { unfold bor, toInt32. rewrite !wrap32_small by lia. apply Z.lor_0_l. }
  rewrite E, bor_shl8 by assumption.
  do 2 f_equal. lia.
Qed.

(** ** readHeader *)

Ltac read_field :=
  match goal with
  | |- context [readItem ?d ?p 1] => rewrite (readItem_1 d p) by lia
  | |- context [readItem ?d ?p 2] => rewrite (readItem_2 d p) by lia
  end; cbn [mbind outcome_bind].

Lemma readHeader_complete (data : list byte) :
  18 <= Z.of_nat (length data) ->
  readHeader data 0 = Ok (normalizeEntryDepth (raw_header data), 18).
Proof.
  intros Hlen. unfold readHeader.
  do 12 read_field. reflexivity.
Qed.

Ltac field_or_stop :=
  match goal with
  | |- context [readItem ?d ?p ?n] =>
      let Hlt := fresh "Hlt" in
      let Hge := fresh "Hge" in
      destruct (Z.lt_ge_cases (Z.of_nat (length d)) (p + n)) as [Hlt|Hge];
      [ rewrite (readItem_truncated d p n Hlt); cbn [mbind outcome_bind];
        eexists _, _; split; [|reflexivity];
        unfold first_missing_field, header_fields; cbn [find snd];
        repeat match goal with
               | |- context [?a <? ?b] => destruct (Z.ltb_spec a b); try lia
               end;
        reflexivity
      | rewrite (readItem_fits d p n Hge); cbn [mbind outcome_bind] ]
  end.

(** On a buffer shorter than the header, reading stops at the first field
    that does not fit. *)
Lemma readHeader_truncated (data : list byte) :
  Z.of_nat (length data) < 18 ->
  exists s e, first_missing_field (Z.of_nat (length data)) = Some (s, e) /\
              readHeader data 0 = Throw (NotEnoughData s e).
Proof.
  intros Hlen. unfold readHeader.
  do 12 field_or_stop. lia.
Qed.

(** ** 5-5-5 entries *)

Lemma expand5_ops (v : Z) : 0 <= v <= 31 -> bor (shl v 3) (sar v 2) = expand5 v.
Proof.
  intros Hv. unfold bor, shl, sar, toInt32, expand5.
  change (Z.land 3 31) with 3. change (Z.land 2 31) with 2.
  rewrite (wrap32_small v) by lia.
  assert (E3 : Z.shiftl v 3 = v * 8) by (now rewrite Z.shiftl_mul_pow2 by lia).
  assert (E2 : 0 <= Z.shiftr v 2 <= v).
  { rewrite Z.shiftr_div_pow2 by lia. change (2 ^ 2) with 4.
    split; [apply Z.div_pos; lia|]. apply Z.div_le_upper_bound; lia. }
  rewrite !(wrap32_small (Z.shiftl v 3)) by lia.
  rewrite (wrap32_small (Z.shiftr v 2)) by lia.
  reflexivity.
Qed.

Lemma channel5_ops (w shift : Z) :
  0 <= w < 65536 -> 0 <= shift <= 10 ->
  sar (band w (Z.shiftl 31 shift)) shift = channel5 w shift.
Proof.
  intros Hw Hs. unfold sar, band, toInt32, channel5.
  assert (Hm : 0 <= Z.shiftl 31 shift <= 31744).
  { rewrite Z.shiftl_mul_pow2 by lia.
    assert (0 < 2 ^ shift) by (apply Z.pow_pos_nonneg; lia).
    assert (2 ^ shift <= 2 ^ 10) by (apply Z.pow_le_mono_r; lia).
    change (2 ^ 10) with 1024 in *. lia. }
  rewrite (wrap32_small w), (wrap32_small (Z.shiftl 31 shift)) by lia.
  pose proof (land_range w (Z.shiftl 31 shift) (proj1 Hm)).
  rewrite wrap32_small by lia.
  replace (Z.land shift 31) with shift.
  - rewrite Z.shiftr_land, Z.shiftr_shiftl_l by lia.
    rewrite Z.sub_diag. reflexivity.
  - symmetry. change 31 with (Z.ones 5). rewrite Z.land_ones by lia.
    apply Z.mod_small. change (2 ^ 5) with 32. lia.
Qed.

Lemma channel5_range (w shift : Z) : 0 <= channel5 w shift <= 31.
Proof. unfold channel5. apply land_range. lia. Qed.

Lemma getColorFrom2ByteEntry_555 (entry : list byte) (lo hi : byte) :
  get entry 0 = num (b2z lo) -> get entry 1 = num (b2z hi) ->
  getColorFrom2ByteEntry entry =
  let w := b2z lo + 256 * b2z hi in
  [num (expand5 (channel5 w 10)); num (expand5 (channel5 w 5));
   num (expand5 (channel5 w 0)); num 255].
Proof.
  intros Hlo Hhi. unfold getColorFrom2ByteEntry. rewrite Hlo, Hhi.
  pose proof (b2z_range lo). pose proof (b2z_range hi).
  rewrite bor_shl8 by assumption.
  replace (b2z hi * 256 + b2z lo) with (b2z lo + 256 * b2z hi) by lia.
  cbv zeta.
  change 31744 with (Z.shiftl 31 10). change 992 with (Z.shiftl 31 5).
  change (num 31) with (num (Z.shiftl 31 0)).
  rewrite !channel5_ops by lia.
  rewrite !expand5_ops by apply channel5_range.
  reflexivity.
Qed.

(** ** Typed-array writes keep the allocated length *)

Lemma put_length (a : list byte) (i : Z) (b : byte) :
  length (put a i b) = length a.
Proof.
  unfold put. destruct (i <? 0); [reflexivity|]. apply length_insert.
Qed.

Lemma typed_set_length (target source r : list byte) (offset : Z) :
  typed_set target source offset = Ok r -> length r = length target.
Proof.
  unfold typed_set.
  destruct (Z.ltb_spec offset 0); [discriminate|].
  destruct (Z.ltb_spec (Z.of_nat (length target))
              (Z.of_nat (length source) + offset)); [discriminate|].
  simpl. intros [= <-].
  rewrite !length_app, length_take, length_drop. lia.
Qed.

Lemma typed_set_no_fuel (target source : list byte) (offset : Z) :
  typed_set target source offset <> Fuel.
Proof.
  unfold typed_set. destruct (_ || _); discriminate.
Qed.

Lemma copy_pixels_spec (pixel : list byte) (pixelSize : Z) (n : nat) :
  forall (result : list byte) (current : Z),
    match copy_pixels pixel pixelSize n result current with
    | Ok (r, c) =>
        length r = length result /\ c = current + Z.of_nat n * pixelSize
    | Throw _ => True
    | Fuel => False
    end.
Proof.
  induction n as [|n IH]; intros result current.
  - simpl. split; [reflexivity|lia].
  - cbn [copy_pixels].
    destruct (typed_set result pixel current) as [r| |] eqn:E;
      cbn [mbind outcome_bind]; [|exact I|now apply typed_set_no_fuel in E].
    apply typed_set_length in E.
    specialize (IH r (current + pixelSize)).
    destruct (copy_pixels pixel pixelSize n r (current + pixelSize))
      as [[r' c']| |]; [|exact I|assumption].
    destruct IH as [Hl Hc]. split; [congruence|lia].
Qed.

Lemma copy_bytes_spec (data : list byte) (n : nat) :
  forall (result : list byte) (current pointer : Z),
    let '(r, c, p) := copy_bytes data n result current pointer in
    length r = length result /\ c = current + Z.of_nat n
    /\ p = pointer + Z.of_nat n.
Proof.
  induction n as [|n IH]; intros result current pointer.
  - simpl. repeat split; lia.
  - cbn [copy_bytes].
    specialize (IH (put result current (toUint8 (get data pointer)))
                  (current + 1) (pointer + 1)).
    destruct (copy_bytes data n _ _ _) as [[r c] p].
    rewrite put_length in IH. destruct IH as (Hl & Hc & Hp).
    repeat split; [assumption| lia | lia].
Qed.

Lemma packet_count_range (header : jsval) : 1 <= band header 127 + 1 <= 128.
Proof.
  unfold band. pose proof (land_range (toInt32 header) (toInt32 127)).
  change (toInt32 127) with 127 in *. lia.
Qed.

(** The buffer returned by the packet loop is the allocated one, in length. *)
Lemma rle_loop_length (fuel : nat) (data : list byte) (pixelSize total : Z) :
  forall (result : list byte) (current pointer : Z) (r : list byte) (p : Z),
    rle_loop fuel data pixelSize total result current pointer = Ok (r, p) ->
    length r = length result.
Proof.
  induction fuel as [|fuel IH]; intros result current pointer r p;
    cbn [rle_loop]; destruct (current <? total); try discriminate;
    try (intros [= <- <-]; reflexivity).
  destruct (_ =? 1).
  - pose proof (copy_pixels_spec
                  (subarray data (pointer + 1) (pointer + 1 + pixelSize))
                  pixelSize (Z.to_nat (band (get data pointer) 127 + 1))
                  result current) as Hc.
    destruct (copy_pixels _ _ _ _ _) as [[r' c']| |];
      cbn [mbind outcome_bind]; try discriminate.
    intros H. apply IH in H. destruct Hc. congruence.
  - pose proof (copy_bytes_spec data
                  (Z.to_nat ((band (get data pointer) 127 + 1) * pixelSize))
                  result current (pointer + 1)) as Hc.
    destruct (copy_bytes _ _ _ _ _) as [[r' c'] p'].
    intros H. apply IH in H. destruct Hc. congruence.
Qed.

(** The packet loop ends within the bound: every packet yields at least one
    byte when pixels have at least one byte. *)
Lemma rle_loop_no_fuel (fuel : nat) (data : list byte) (pixelSize total : Z) :
  1 <= pixelSize ->
  forall (result : list byte) (current pointer : Z),
    total - current <= Z.of_nat fuel ->
    rle_loop fuel data pixelSize total result current pointer <> Fuel.
Proof.
  intros Hps. induction fuel as [|fuel IH]; intros result current pointer Hf;
    cbn [rle_loop]; destruct (Z.ltb_spec current total); try discriminate;
    try lia.
  pose proof (packet_count_range (get data pointer)) as Hn.
  destruct (_ =? 1).
  - pose proof (copy_pixels_spec
                  (subarray data (pointer + 1) (pointer + 1 + pixelSize))
                  pixelSize (Z.to_nat (band (get data pointer) 127 + 1))
                  result current) as Hc.
    destruct (copy_pixels _ _ _ _ _) as [[r' c']| |];
      cbn [mbind outcome_bind]; try discriminate; [|contradiction].
    apply IH. destruct Hc as [_ ->]. nia.
  - pose proof (copy_bytes_spec data
                  (Z.to_nat ((band (get data pointer) 127 + 1) * pixelSize))
                  result current (pointer + 1)) as Hc.
    destruct (copy_bytes _ _ _ _ _) as [[r' c'] p'].
    apply IH. destruct Hc as (_ & -> & _). nia.
Qed.

Lemma new_array_length (n : Z) (a : list byte) :
  new_array n = Ok a -> Z.of_nat (length a) = n.
Proof.
  unfold new_array. destruct (Z.ltb_spec n 0); [discriminate|].
  intros [= <-]. rewrite length_replicate. lia.
Qed.

Lemma parse_loop_length (info : TgaInfo) (imageData : list byte)
    (colorMap : option (list byte)) (n : nat) :
  forall (i : Z) (displayData out : list byte),
    parse_loop info imageData colorMap n i displayData = Ok out ->
    length out = length displayData.
Proof.
  induction n as [|n IH]; intros i displayData out; cbn [parse_loop].
  - now intros [= <-].
  - destruct (getPixel info imageData colorMap i) as [pixel| |];
      cbn [mbind outcome_bind]; try discriminate.
    intros H. apply IH in H. now rewrite !put_length in H.
Qed.

(** ** Ranges of the header fields and of the derived sizes *)

Lemma byte_value_range (data : list byte) (i : Z) :
  0 <= toInteger (get data i) < 256.
Proof.
  unfold get. destruct (i <? 0); [simpl; lia|].
  destruct (data !! Z.to_nat i) as [b|]; simpl; [apply b2z_range|lia].
Qed.

Lemma littleEndian_1_range (data : list byte) (s : Z) :
  0 <= littleEndian data s 1 < 256.
Proof.
  simpl. pose proof (byte_value_range data s). lia.
Qed.

Lemma littleEndian_2_range (data : list byte) (s : Z) :
  0 <= littleEndian data s 2 < 65536.
Proof.
  simpl. pose proof (byte_value_range data s).
  pose proof (byte_value_range data (s + 1)). lia.
Qed.

Lemma sar3_range (x : Z) : 0 <= x < 256 -> 0 <= sar x 3 <= 31.
Proof.
  intros Hx. unfold sar, toInt32. change (Z.land 3 31) with 3.
  rewrite wrap32_small by lia.
  rewrite Z.shiftr_div_pow2 by lia. change (2 ^ 3) with 8.
  split; [apply Z.div_pos; lia|].
  apply Z.lt_succ_r. apply Z.div_lt_upper_bound; lia.
Qed.

Lemma normalizeEntryDepth_fields (h : TgaHeader) :
  let h' := normalizeEntryDepth h in
  idLength h' = idLength h /\ colorMapType h' = colorMapType h /\
  imageType h' = imageType h /\ colorMapStart h' = colorMapStart h /\
  colorMapLength h' = colorMapLength h /\
  colorMapEntryDepth h' =
    (if colorMapEntryDepth h =? 15 then 16 else colorMapEntryDepth h) /\
  xOrigin h' = xOrigin h /\ yOrigin h' = yOrigin h /\
  width h' = width h /\ height h' = height h /\
  pixelDepth h' = pixelDepth h /\ descriptor h' = descriptor h.
Proof.
  unfold normalizeEntryDepth. destruct (colorMapEntryDepth h =? 15) eqn:E;
    cbn; rewrite ?E; repeat split; reflexivity.
Qed.

(** What [readHeader] returns whenever it returns. *)
Lemma readHeader_inv (data : list byte) (h : TgaHeader) (p : Z) :
  readHeader data 0 = Ok (h, p) ->
  18 <= Z.of_nat (length data) /\
  h = normalizeEntryDepth (raw_header data) /\ p = 18.
Proof.
  intros H. destruct (Z.lt_ge_cases (Z.of_nat (length data)) 18) as [Hlt|Hge].
  - destruct (readHeader_truncated data Hlt) as (s & e & _ & E). congruence.
  - rewrite readHeader_complete in H by assumption.
    injection H as <- <-. auto.
Qed.

Lemma header_sizes (data : list byte) :
  let info := createTgaInfo (normalizeEntryDepth (raw_header data)) in
  0 <= pixelSize info <= 31 /\ 0 <= pixelCount info /\
  0 <= idLength (hdr info) < 256.
Proof.
  cbv zeta. pose proof (normalizeEntryDepth_fields (raw_header data)) as F.
  cbv zeta in F. destruct F as (Fi & _ & _ & _ & _ & _ & _ & _ & Fw & Fh & Fp & _).
  cbn [createTgaInfo pixelSize pixelCount hdr].
  rewrite Fi, Fw, Fh, Fp. cbn [raw_header idLength width height pixelDepth].
  pose proof (littleEndian_1_range data 0).
  pose proof (littleEndian_1_range data 16).
  pose proof (littleEndian_2_range data 12).
  pose proof (littleEndian_2_range data 14).
  split; [apply sar3_range; assumption|]. split; [nia|assumption].
Qed.

(** ** The decoder always returns or throws *)

Lemma readImageData_no_fuel (data : list byte) (info : TgaInfo) (pointer : Z) :
  0 <= pixelSize info -> 0 <= pixelCount info ->
  readImageData data info pointer <> Fuel.
Proof.
  intros Hps Hpc. unfold readImageData.
  destruct (negb (isRle info)); [discriminate|].
  unfold new_array. destruct (Z.ltb_spec (pixelCount info * pixelSize info) 0); [nia|].
  cbn [mbind outcome_bind].
  destruct (Z.eq_dec (pixelSize info) 0) as [E|E].
  - rewrite E, Z.mul_0_r. simpl. discriminate.
  - apply rle_loop_no_fuel; lia.
Qed.

Lemma getColorMapPixel_no_fuel (info : TgaInfo) (colorMap : option (list byte))
    (index : jsval) :
  getColorMapPixel info colorMap index <> Fuel.
Proof.
  unfold getColorMapPixel. destruct colorMap; [|discriminate].
  destruct (colorMapEntrySize info) as [|[[[]|[]|]|[[]|[]|]|]|]; discriminate.
Qed.

Lemma getPixel_no_fuel (info : TgaInfo) (imageData : list byte)
    (colorMap : option (list byte)) (index : Z) :
  getPixel info imageData colorMap index <> Fuel.
Proof.
  unfold getPixel.
  destruct (pixelSize info) as [|[[[]|[]|]|[[]|[]|]|]|];
    destruct (isIndexed info), (isGrey info);
    try discriminate; apply getColorMapPixel_no_fuel.
Qed.

Lemma parse_loop_no_fuel (info : TgaInfo) (imageData : list byte)
    (colorMap : option (list byte)) (n : nat) :
  forall (i : Z) (displayData : list byte),
    parse_loop info imageData colorMap n i displayData <> Fuel.
Proof.
  induction n as [|n IH]; intros i displayData; cbn [parse_loop]; [discriminate|].
  pose proof (getPixel_no_fuel info imageData colorMap i).
  destruct (getPixel info imageData colorMap i); cbn [mbind outcome_bind];
    [apply IH|discriminate|contradiction].
Qed.

Lemma parseImageData_no_fuel (info : TgaInfo) (imageData : list byte)
    (colorMap : option (list byte)) :
  parseImageData info imageData colorMap <> Fuel.
Proof.
  unfold parseImageData, new_array. destruct (_ <? 0); cbn [mbind outcome_bind];
    [discriminate|apply parse_loop_no_fuel].
Qed.

(** [parseTgaData] is total: on every buffer it returns an image or throws;
    the bound of the packet loop is never reached. *)
Lemma parseTgaData_total (data : list byte) : parseTgaData data <> Fuel.
Proof.
  unfold parseTgaData.
  destruct (readHeader data 0) as [[h p]| |] eqn:E; cbn [mbind outcome_bind].
  - apply readHeader_inv in E. destruct E as (_ & -> & ->).
    destruct (readColorMap _ _ _) as [colorMap p'].
    pose proof (header_sizes data) as (Hps & Hpc & _).
    pose proof (readImageData_no_fuel data _ p' (proj1 Hps) Hpc) as Hr.
    destruct (readImageData _ _ _) as [[raw p'']| |]; cbn [mbind outcome_bind];
      [|discriminate|contradiction].
    pose proof (parseImageData_no_fuel
                  (createTgaInfo (normalizeEntryDepth (raw_header data)))
                  raw colorMap) as Hd.
    destruct (parseImageData _ _ _); cbn [mbind outcome_bind];
      [discriminate|discriminate|contradiction].
  - discriminate.
  - destruct (Z.lt_ge_cases (Z.of_nat (length data)) 18) as [Hlt|Hge].
    + destruct (readHeader_truncated data Hlt) as (s & e & _ & E'). congruence.
    + rewrite readHeader_complete in E by assumption. discriminate.
Qed.

(** ** The packet loop *)

Lemma byte_of_Z_b2z (b : byte) : byte_of_Z (b2z b) = b.
Proof.
  unfold byte_of_Z. pose proof (b2z_range b).
  rewrite Z.mod_small by assumption.
  unfold b2z. rewrite N2Z.id, Byte.of_to_N. reflexivity.
Qed.

Lemma packet_header_decode (h : byte) :
  (sar (band (b2z h) 128) 7 =? 1) = is_rle_packet h /\
  band (b2z h) 127 + 1 = packet_count h.
Proof.
  split.
  - destruct h; reflexivity.
  - unfold band, packet_count, toInt32. pose proof (b2z_range h).
    rewrite (wrap32_small (b2z h)) by lia. reflexivity.
Qed.

Lemma packet_count_bounds (h : byte) : 1 <= packet_count h <= 128.
Proof.
  unfold packet_count. pose proof (land_range (b2z h) 127). lia.
Qed.

(** One turn of the loop on a run-length packet. *)
Lemma rle_loop_rle_packet (fuel : nat) (data : list byte) (pixelSize total : Z)
    (result : list byte) (current pointer : Z) (h : byte) :
  current < total -> get data pointer = num (b2z h) ->
  is_rle_packet h = true ->
  rle_loop (S fuel) data pixelSize total result current pointer =
  ('(r, c) ← copy_pixels (subarray data (pointer + 1) (pointer + 1 + pixelSize))
               pixelSize (Z.to_nat (packet_count h)) result current;
   rle_loop fuel data pixelSize total r c (pointer + 1 + pixelSize)).
Proof.
  intros Hc Hg Hk. cbn [rle_loop].
  destruct (Z.ltb_spec current total); [|lia].
  rewrite Hg. destruct (packet_header_decode h) as [-> ->].
  rewrite Hk. reflexivity.
Qed.

(** One turn of the loop on a raw packet. *)
Lemma rle_loop_raw_packet (fuel : nat) (data : list byte) (pixelSize total : Z)
    (result : list byte) (current pointer : Z) (h : byte) :
  current < total -> get data pointer = num (b2z h) ->
  is_rle_packet h = false ->
  rle_loop (S fuel) data pixelSize total result current pointer =
  (let '(r, c, p) := copy_bytes data (Z.to_nat (packet_count h * pixelSize))
                       result current (pointer + 1) in
   rle_loop fuel data pixelSize total r c p).
Proof.
  intros Hc Hg Hk. cbn [rle_loop].
  destruct (Z.ltb_spec current total); [|lia].
  rewrite Hg. destruct (packet_header_decode h) as [-> ->].
  rewrite Hk. reflexivity.
Qed.

Lemma rle_loop_done (fuel : nat) (data : list byte) (pixelSize total : Z)
    (result : list byte) (current pointer : Z) :
  total <= current ->
  rle_loop fuel data pixelSize total result current pointer = Ok (result, pointer).
Proof.
  intros Hc. destruct fuel; cbn [rle_loop];
    destruct (Z.ltb_spec current total); try lia; reflexivity.
Qed.

Lemma get_app_middle (pre rest : list byte) (b : byte) :
  get (pre ++ b :: rest) (Z.of_nat (length pre)) = num (b2z b).
Proof.
  rewrite get_lookup, lookup_app_r by lia.
  rewrite Nat.sub_diag. reflexivity.
Qed.

Lemma subarray_app_middle (pre mid post : list byte) :
  subarray (pre ++ mid ++ post) (Z.of_nat (length pre))
    (Z.of_nat (length pre) + Z.of_nat (length mid)) = mid.
Proof.
  rewrite subarray_inside by (rewrite ?length_app; lia).
  rewrite !Nat2Z.id, drop_app_length, take_app_length. reflexivity.
Qed.

Lemma typed_set_app (done zeros source : list byte) :
  (length source <= length zeros)%nat ->
  typed_set (done ++ zeros) source (Z.of_nat (length done)) =
  Ok (done ++ source ++ drop (length source) zeros).
Proof.
  intros Hl. unfold typed_set.
  destruct (Z.ltb_spec (Z.of_nat (length done)) 0); [lia|].
  destruct (Z.ltb_spec (Z.of_nat (length (done ++ zeros)))
              (Z.of_nat (length source) + Z.of_nat (length done)));
    [rewrite length_app in *; lia|].
  cbn [orb]. rewrite Nat2Z.id, take_app_length.
  rewrite <- drop_drop, drop_app_length. reflexivity.
Qed.

Lemma copy_pixels_fill (pixel : list byte) (pixelSize : Z) (n : nat) :
  Z.of_nat (length pixel) = pixelSize ->
  forall done zeros : list byte,
    (n * length pixel <= length zeros)%nat ->
    copy_pixels pixel pixelSize n (done ++ zeros) (Z.of_nat (length done)) =
    Ok (done ++ mjoin (replicate n pixel) ++ drop (n * length pixel) zeros,
        Z.of_nat (length done) + Z.of_nat n * pixelSize).
Proof.
  intros Hps. induction n as [|n IH]; intros done zeros Hl.
  - cbn. do 2 f_equal. lia.
  - cbn [copy_pixels]. rewrite typed_set_app by lia.
    cbn [mbind outcome_bind].
    replace (Z.of_nat (length done) + pixelSize)
      with (Z.of_nat (length (done ++ pixel))) by (rewrite length_app; lia).
    rewrite (app_assoc done pixel), IH by (rewrite length_drop; lia).
    cbn [replicate mjoin list_join]. rewrite drop_drop.
    rewrite <- !app_assoc, length_app.
    do 2 f_equal. lia.
Qed.

Lemma copy_bytes_fill (bytes : list byte) :
  forall pre post done zeros : list byte,
    (length bytes <= length zeros)%nat ->
    copy_bytes (pre ++ bytes ++ post) (length bytes) (done ++ zeros)
      (Z.of_nat (length done)) (Z.of_nat (length pre)) =
    (done ++ bytes ++ drop (length bytes) zeros,
     Z.of_nat (length done) + Z.of_nat (length bytes),
     Z.of_nat (length pre) + Z.of_nat (length bytes)).
Proof.
  induction bytes as [|b bytes IH]; intros pre post done zeros Hl.
  - cbn. do 2 f_equal; [f_equal|]; lia.
  - destruct zeros as [|z zeros]; [simpl in Hl; lia|].
    cbn [length copy_bytes app].
    rewrite get_app_middle. cbn [toUint8]. rewrite byte_of_Z_b2z.
    unfold put. destruct (Z.ltb_spec (Z.of_nat (length done)) 0); [lia|].
    rewrite Nat2Z.id, insert_app_r_alt, Nat.sub_diag by lia.
    cbn [insert list_insert].
    replace (Z.of_nat (length done) + 1)
      with (Z.of_nat (length (done ++ [b]))) by (rewrite length_app; simpl; lia).
    replace (Z.of_nat (length pre) + 1)
      with (Z.of_nat (length (pre ++ [b]))) by (rewrite length_app; simpl; lia).
    replace (done ++ b :: zeros) with ((done ++ [b]) ++ zeros)
      by (now rewrite <- app_assoc).
    replace (pre ++ b :: bytes ++ post) with ((pre ++ [b]) ++ bytes ++ post)
      by (now rewrite <- app_assoc).
    rewrite IH by (simpl in Hl; lia).
    rewrite <- app_assoc, !length_app. cbn [length app drop].
    f_equal; [f_equal|]; lia.
Qed.

Lemma length_mjoin_replicate (n : nat) (pixel : list byte) :
  length (mjoin (replicate n pixel)) = (n * length pixel)%nat.
Proof.
  induction n as [|n IH]; [reflexivity|].
  change (mjoin (replicate (S n) pixel))
    with (pixel ++ mjoin (replicate n pixel)).
  rewrite length_app, IH. lia.
Qed.

Ltac reshape :=
  repeat first [rewrite <- app_assoc | progress cbn [app]]; reflexivity.

(** The loop on a well-formed packet stream: it writes what the stream stands
    for after the bytes already produced and stops behind the stream. *)
Lemma rle_loop_expands (pixelSize : Z) (stream out : list byte) :
  expands pixelSize stream out -> 1 <= pixelSize ->
  forall (fuel : nat) (pre suffix done zeros : list byte),
    length zeros = length out -> (length out <= fuel)%nat ->
    rle_loop fuel (pre ++ stream ++ suffix) pixelSize
      (Z.of_nat (length done) + Z.of_nat (length out)) (done ++ zeros)
      (Z.of_nat (length done)) (Z.of_nat (length pre)) =
    Ok (done ++ out, Z.of_nat (length pre) + Z.of_nat (length stream)).
Proof.
  intros Hex Hps.
  induction Hex as [|h pixel rest out Hk Hpx Hex IH|h bytes rest out Hk Hby Hex IH];
    intros fuel pre suffix done zeros Hz Hf.
  - rewrite rle_loop_done by (simpl; lia).
    destruct zeros; [|discriminate]. simpl. do 2 f_equal. lia.
  - pose proof (packet_count_bounds h) as Hn.
    set (n := Z.to_nat (packet_count h)) in *.
    rewrite length_app, length_mjoin_replicate in Hz, Hf.
    assert (Hn1 : (1 <= n)%nat) by lia.
    assert (Hp1 : (1 <= length pixel)%nat) by lia.
    assert (Hnp : (1 <= n * length pixel)%nat) by nia.
    destruct fuel as [|fuel]; [lia|].
    rewrite (rle_loop_rle_packet _ _ _ _ _ _ _ h);
      [| rewrite length_app, length_mjoin_replicate; nia
       | cbn [app]; apply get_app_middle | assumption ].
    replace (pre ++ (h :: pixel ++ rest) ++ suffix)
      with ((pre ++ [h]) ++ pixel ++ (rest ++ suffix))
      by reshape.
    replace (Z.of_nat (length pre) + 1)
      with (Z.of_nat (length (pre ++ [h]))) by (rewrite length_app; simpl; lia).
    rewrite <- Hpx at 1. rewrite subarray_app_middle.
    rewrite copy_pixels_fill by (assumption || lia).
    cbn [mbind outcome_bind].
    fold n.
    replace ((pre ++ [h]) ++ pixel ++ rest ++ suffix)
      with ((pre ++ h :: pixel) ++ rest ++ suffix)
      by reshape.
    replace (Z.of_nat (length (pre ++ [h])) + pixelSize)
      with (Z.of_nat (length (pre ++ h :: pixel)))
      by (rewrite !length_app; simpl; lia).
    replace (Z.of_nat (length done) + Z.of_nat n * pixelSize)
      with (Z.of_nat (length (done ++ mjoin (replicate n pixel))))
      by (rewrite length_app, length_mjoin_replicate; nia).
    replace (Z.of_nat (length done) +
             Z.of_nat (length (mjoin (replicate n pixel) ++ out)))
      with (Z.of_nat (length (done ++ mjoin (replicate n pixel))) +
            Z.of_nat (length out))
      by (rewrite !length_app; lia).
    rewrite (app_assoc done), IH by (rewrite ?length_drop; lia).
    rewrite <- !app_assoc, !length_app. cbn [length app].
    f_equal. f_equal. rewrite ?length_app. lia.
  - pose proof (packet_count_bounds h) as Hn.
    rewrite length_app in Hz, Hf.
    assert (Hb1 : (1 <= length bytes)%nat) by nia.
    destruct fuel as [|fuel]; [lia|].
    rewrite (rle_loop_raw_packet _ _ _ _ _ _ _ h);
      [| rewrite length_app; lia
       | cbn [app]; apply get_app_middle | assumption ].
    replace (pre ++ (h :: bytes ++ rest) ++ suffix)
      with ((pre ++ [h]) ++ bytes ++ (rest ++ suffix))
      by reshape.
    replace (Z.of_nat (length pre) + 1)
      with (Z.of_nat (length (pre ++ [h]))) by (rewrite length_app; simpl; lia).
    rewrite <- Hby, Nat2Z.id.
    rewrite copy_bytes_fill by lia.
    replace ((pre ++ [h]) ++ bytes ++ rest ++ suffix)
      with ((pre ++ h :: bytes) ++ rest ++ suffix)
      by reshape.
    replace (Z.of_nat (length (pre ++ [h])) + Z.of_nat (length bytes))
      with (Z.of_nat (length (pre ++ h :: bytes)))
      by (rewrite !length_app; simpl; lia).
    replace (Z.of_nat (length done) + Z.of_nat (length bytes))
      with (Z.of_nat (length (done ++ bytes)))
      by (rewrite length_app; lia).
    replace (Z.of_nat (length done) + Z.of_nat (length (bytes ++ out)))
      with (Z.of_nat (length (done ++ bytes)) + Z.of_nat (length out))
      by (rewrite !length_app; lia).
    rewrite (app_assoc done), IH by (rewrite ?length_drop; lia).
    rewrite <- !app_assoc, !length_app. cbn [length app].
    f_equal. f_equal. rewrite ?length_app. lia.
Qed.

(** [readImageData] on a buffer that holds a well-formed packet stream for
    the whole image at the pointer. *)
Lemma readImageData_expands (info : TgaInfo) (prefix stream suffix out : list byte) :
  isRle info = true -> 1 <= pixelSize info ->
  expands (pixelSize info) stream out ->
  Z.of_nat (length out) = pixelCount info * pixelSize info ->
  readImageData (prefix ++ stream ++ suffix) info (Z.of_nat (length prefix)) =
  Ok (out, Z.of_nat (length prefix) + Z.of_nat (length stream)).
Proof.
  intros Hrle Hps Hex Hlen. unfold readImageData. rewrite Hrle. cbn [negb].
  rewrite <- Hlen. unfold new_array.
  destruct (Z.ltb_spec (Z.of_nat (length out)) 0); [lia|].
  cbn [mbind outcome_bind]. rewrite Nat2Z.id.
  pose proof (rle_loop_expands (pixelSize info) stream out Hex Hps
                (length out) prefix suffix [] (replicate (length out) x00)) as Hloop.
  cbn [app length] in Hloop. rewrite Z.add_0_l in Hloop.
  apply Hloop; [apply length_replicate|lia].
Qed.

(** ** Reads behind the header do not see the header bytes *)

Section Agreement.

Variables (k : nat) (a b : list byte).
Hypothesis Hab : agree_from k a b.

Lemma get_agree (p : Z) : Z.of_nat k <= p -> get a p = get b p.
Proof.
  destruct Hab as [_ H]. intros Hp. unfold get. destruct (p <? 0); [reflexivity|].
  rewrite (H (Z.to_nat p)) by lia. reflexivity.
Qed.

Lemma subarray_agree (s : Z) (e : jsval) :
  Z.of_nat k <= s -> subarray a s e = subarray b s e.
Proof.
  destruct Hab as [Hl H]. intros Hs. unfold subarray. rewrite <- Hl.
  cbn [toInteger]. unfold clampIndex at 1 3 4 6.
  destruct (Z.ltb_spec s 0); [lia|].
  set (len := Z.of_nat (length a)).
  set (ei := clampIndex len (toInteger e)).
  f_equal. apply list_eq. intros i. rewrite !lookup_drop.
  destruct (Z.le_gt_cases len s).
  - rewrite !(proj2 (lookup_ge_None _ _)); [reflexivity| |]; lia.
  - apply H. lia.
Qed.

Lemma copy_bytes_agree (n : nat) :
  forall (result : list byte) (current pointer : Z),
    Z.of_nat k <= pointer ->
    copy_bytes a n result current pointer = copy_bytes b n result current pointer.
Proof.
  induction n as [|n IH]; intros result current pointer Hp;
    cbn [copy_bytes]; [reflexivity|].
  rewrite (get_agree pointer Hp). apply IH. lia.
Qed.

Lemma rle_loop_agree (pixelSize total : Z) (fuel : nat) :
  0 <= pixelSize ->
  forall (result : list byte) (current pointer : Z),
    Z.of_nat k <= pointer ->
    rle_loop fuel a pixelSize total result current pointer =
    rle_loop fuel b pixelSize total result current pointer.
Proof.
  intros Hps. induction fuel as [|fuel IH]; intros result current pointer Hp;
    cbn [rle_loop]; [reflexivity|].
  destruct (current <? total); [|reflexivity].
  rewrite (get_agree pointer Hp).
  destruct (_ =? 1).
  - rewrite (subarray_agree (pointer + 1)) by lia.
    destruct (copy_pixels _ _ _ _ _) as [[r c]| |]; cbn [mbind outcome_bind];
      [apply IH; lia|reflexivity|reflexivity].
  - rewrite copy_bytes_agree by lia.
    pose proof (copy_bytes_spec b
                  (Z.to_nat ((band (get b pointer) 127 + 1) * pixelSize))
                  result current (pointer + 1)) as Hc.
    destruct (copy_bytes _ _ _ _ _) as [[r c] p'].
    apply IH. lia.
Qed.

Lemma readImageData_agree (info : TgaInfo) (pointer : Z) :
  0 <= pixelSize info -> Z.of_nat k <= pointer ->
  readImageData a info pointer = readImageData b info pointer.
Proof.
  intros Hps Hp. unfold readImageData.
  destruct (negb (isRle info)).
  - now rewrite (subarray_agree pointer _ Hp).
  - destruct (new_array _); cbn [mbind outcome_bind]; try reflexivity.
    now apply rle_loop_agree.
Qed.

Lemma readColorMap_agree (info : TgaInfo) (pointer : Z) :
  Z.of_nat k <= pointer ->
  readColorMap a info pointer = readColorMap b info pointer.
Proof.
  intros Hp. unfold readColorMap.
  destruct (negb _); [reflexivity|].
  now rewrite (subarray_agree pointer _ Hp).
Qed.

End Agreement.

(** ** The format descriptor does not depend on [colorMapStart] *)




(** ** Palette lookups *)

Lemma getColorMapPixel_past_end (info : TgaInfo) (colorMap : list byte) (index : Z) :
  0 <= index ->
  Z.of_nat (length colorMap) <= index * colorMapEntrySize info ->
  getColorMapPixel info (Some colorMap) index =
  match colorMapEntrySize info with
  | 2 => Ok [num 0; num 0; num 0; num 255]
  | 3 => Ok [undefined; undefined; undefined; num 255]
  | 4 => Ok [undefined; undefined; undefined;
             if alphaDepth info =? 8 then undefined else num 255]
  | n => Throw (UnsupportedColorMapEntrySize n)
  end.
Proof.
  intros Hi Hlen. unfold getColorMapPixel. cbn [mul add].
  rewrite subarray_past_end by lia.
  destruct (colorMapEntrySize info) as [|[[[]|[]|]|[[]|[]|]|]|]; reflexivity.
Qed.

(** ** The run-length path and its buffer *)

Lemma copy_pixels_throw (pixel : list byte) (pixelSize : Z) (n : nat) :
  forall (result : list byte) (current : Z) (e : error),
    copy_pixels pixel pixelSize n result current = Throw e ->
    e = OffsetOutOfBounds.
Proof.
  induction n as [|n IH]; intros result current e; cbn [copy_pixels];
    [discriminate|].
  unfold typed_set. destruct (_ || _); cbn [mbind outcome_bind].
  - now intros [= <-].
  - apply IH.
Qed.

Lemma rle_loop_throw (fuel : nat) (data : list byte) (pixelSize total : Z) :
  forall (result : list byte) (current pointer : Z) (e : error),
    rle_loop fuel data pixelSize total result current pointer = Throw e ->
    e = OffsetOutOfBounds.
Proof.
  induction fuel as [|fuel IH]; intros result current pointer e;
    cbn [rle_loop]; destruct (current <? total); try discriminate.
  destruct (_ =? 1).
  - destruct (copy_pixels _ _ _ _ _) as [[r c]| |] eqn:E;
      cbn [mbind outcome_bind]; try discriminate.
    + apply IH.
    + intros [= <-]. now apply copy_pixels_throw in E.
  - destruct (copy_bytes _ _ _ _ _) as [[r c] p]. apply IH.
Qed.

(** ** The header without [colorMapStart] *)

Lemma littleEndian_same (a b : list byte) (n : nat) :
  forall s : Z,
    (forall p : Z, s <= p < s + Z.of_nat n -> get a p = get b p) ->
    littleEndian a s n = littleEndian b s n.
Proof.
  induction n as [|n IH]; intros s H; cbn [littleEndian]; [reflexivity|].
  rewrite (H s) by lia. rewrite (IH (s + 1)); [reflexivity|].
  intros p Hp. apply H. lia.
Qed.


(** * Main results *)

(** C1, not met by the code: [createTgaInfo] computes [isGrey] as
    [!!(imageType & 3)], which is [true] as soon as either of the low two
    bits of the type code is set, not only when both are.  For every header
    with image type 1, 2, 9 or 10 the derived descriptor therefore has
    [isGrey = true], and a 16-bit true-color pixel [0x7C00] (red 31) is
    translated as the grey value of its first byte, not as 5-5-5 RGB. *)
Theorem isGrey_set_for_color_types (h : TgaHeader) :
  isGrey (createTgaInfo (with_imageType h IMAGE_TYPE.INDEXED)) = true /\
  isGrey (createTgaInfo (with_imageType h IMAGE_TYPE.RGB)) = true /\
  isGrey (createTgaInfo (with_imageType h IMAGE_TYPE.RLE_INDEXED)) = true /\
  isGrey (createTgaInfo (with_imageType h IMAGE_TYPE.RLE_RGB)) = true /\
  (forall t : byte,
      isGrey (createTgaInfo (with_imageType h (b2z t))) =
      negb (Z.land (b2z t) 3 =? 0)) /\
  parseTgaData (header_bytes x02 x01 x01 x10 x00 ++ [x00; x7c]) =
    Ok {| Image.imageData := [x00; x00; x00; xff];
          Image.width := 1; Image.height := 1 |}.
Proof.
  split; [reflexivity|]. split; [reflexivity|].
  split; [reflexivity|]. split; [reflexivity|].
  split; [|vm_compute; reflexivity].
  intros t. destruct t; reflexivity.
Qed.

(** C2, not met by the code: reads behind the header are not checked
    against the buffer.  A 1x1 24-bit image without its pixel bytes, a
    run-length encoded 2x1 image whose only packet lacks its pixel, and a
    color-mapped image whose color map is cut short (with no pixel data at
    all) each decode to an image instead of failing; and on no buffer does
    the pixel-data reader throw the not-enough-data error of [readItem]. *)
Theorem truncated_regions_still_decode :
  parseTgaData (header_bytes x02 x01 x01 x18 x00) =
    Ok {| Image.imageData := [x00; x00; x00; xff];
          Image.width := 1; Image.height := 1 |} /\
  parseTgaData (header_bytes x0a x02 x01 x18 x00 ++ [x81]) =
    Ok {| Image.imageData := [x00; x00; x00; xff; x00; x00; x00; xff];
          Image.width := 2; Image.height := 1 |} /\
  parseTgaData (indexed_header_bytes x00 x00 x02 ++ [xaa; xbb; xcc]) =
    Ok {| Image.imageData := [x00; x00; x00; xff];
          Image.width := 1; Image.height := 1 |} /\
  (forall (data : list byte) (info : TgaInfo) (pointer s e : Z),
      readImageData data info pointer <> Throw (NotEnoughData s e)).
Proof.
  split; [vm_compute; reflexivity|].
  split; [vm_compute; reflexivity|].
  split; [vm_compute; reflexivity|].
  intros data info pointer s e. unfold readImageData.
  destruct (negb (isRle info)); [discriminate|].
  unfold new_array. destruct (_ <? 0); cbn [mbind outcome_bind]; [discriminate|].
  intros H. apply rle_loop_throw in H. discriminate.
Qed.

(** C3: whenever [parseTgaData] returns, the header was read, the returned
    width and height are the header's width and height fields (the
    little-endian words at offsets 12 and 14), and the pixel buffer holds
    exactly [width * height * 4] bytes. *)
Theorem decoded_dimensions (data : list byte) (out : Image.t) :
  parseTgaData data = Ok out ->
  exists (h : TgaHeader) (p : Z),
    readHeader data 0 = Ok (h, p) /\
    width h = littleEndian data 12 2 /\
    height h = littleEndian data 14 2 /\
    Image.width out = width h /\
    Image.height out = height h /\
    Z.of_nat (length (Image.imageData out)) = width h * height h * 4.
Proof.
  unfold parseTgaData.
  destruct (readHeader data 0) as [[h p]| |] eqn:Eh; cbn [mbind outcome_bind];
    try discriminate.
  destruct (readColorMap _ _ _) as [colorMap p'].
  destruct (readImageData _ _ _) as [[raw p'']| |]; cbn [mbind outcome_bind];
    try discriminate.
  destruct (parseImageData _ _ _) as [displayData| |] eqn:Ed;
    cbn [mbind outcome_bind]; try discriminate.
  intros [= <-]. exists h, p. cbn.
  pose proof (readHeader_inv data h p Eh) as (_ & Hh & _).
  pose proof (normalizeEntryDepth_fields (raw_header data)) as F.
  cbv zeta in F. rewrite <- Hh in F.
  destruct F as (_ & _ & _ & _ & _ & _ & _ & _ & Fw & Fh & _).
  repeat split; try assumption.
  unfold parseImageData in Ed.
  destruct (new_array _) as [d| |] eqn:En; cbn [mbind outcome_bind] in Ed;
    try discriminate.
  apply parse_loop_length in Ed. apply new_array_length in En.
  cbn in En. lia.
Qed.

Lemma decoded_dimensions_witness :
  parseTgaData (header_bytes x02 x01 x01 x18 x00 ++ [x10; x20; x30]) =
    Ok {| Image.imageData := [x30; x20; x10; xff];
          Image.width := 1; Image.height := 1 |} /\
  exists (h : TgaHeader) (p : Z),
    readHeader (header_bytes x02 x01 x01 x18 x00 ++ [x10; x20; x30]) 0 = Ok (h, p) /\
    width h = 1 /\ height h = 1 /\ 1 = width h /\ 1 = height h /\
    4 = width h * height h * 4.
Proof.
  split; [vm_compute; reflexivity|].
  apply (decoded_dimensions
           (header_bytes x02 x01 x01 x18 x00 ++ [x10; x20; x30])
           {| Image.imageData := [x30; x20; x10; xff];
              Image.width := 1; Image.height := 1 |}).
  vm_compute. reflexivity.
Defined.

(** C4: on the RLE path, when the buffer holds at the pointer a packet stream
    that stands for the [pixelCount * pixelSize] bytes of the image -- each
    packet one header byte whose low seven bits plus one give the count [n],
    between 1 and 128, followed by one pixel that is written [n] times when
    the high bit is set, and by [n * pixelSize] bytes that are copied as they
    are when it is clear -- [readImageData] returns exactly those bytes and
    leaves the pointer behind the stream.  With one byte per pixel,
    [0x81 0xFF] expands to [0xFF 0xFF] and [0x02 0x10 0x20 0x30] to
    [0x10 0x20 0x30]. *)
Theorem rle_packets_expand (info : TgaInfo) (prefix stream suffix out : list byte) :
  isRle info = true ->
  1 <= pixelSize info ->
  expands (pixelSize info) stream out ->
  Z.of_nat (length out) = pixelCount info * pixelSize info ->
  readImageData (prefix ++ stream ++ suffix) info (Z.of_nat (length prefix)) =
    Ok (out, Z.of_nat (length prefix) + Z.of_nat (length stream)) /\
  (forall h : byte, 1 <= packet_count h <= 128) /\
  readImageData [x81; xff] (rle_grey8_info 2) 0 = Ok ([xff; xff], 2) /\
  readImageData [x02; x10; x20; x30] (rle_grey8_info 3) 0 =
    Ok ([x10; x20; x30], 4).
Proof.
  intros Hrle Hps Hex Hlen. split; [|split; [|split]].
  - now apply readImageData_expands.
  - apply packet_count_bounds.
  - vm_compute. reflexivity.
  - vm_compute. reflexivity.
Qed.

Lemma rle_packets_expand_witness :
  expands 1 [x81; xff; x02; x10; x20; x30] [xff; xff; x10; x20; x30] /\
  readImageData ([x00] ++ [x81; xff; x02; x10; x20; x30] ++ [x07])
    (rle_grey8_info 5) 1 =
    Ok ([xff; xff; x10; x20; x30], 7).
Proof.
  assert (Hex : expands 1 [x81; xff; x02; x10; x20; x30]
                  [xff; xff; x10; x20; x30]).
  { apply (expands_rle 1 x81 [xff] [x02; x10; x20; x30] [x10; x20; x30]);
      [reflexivity|reflexivity|].
    apply (expands_raw 1 x02 [x10; x20; x30] [] []);
      [reflexivity|reflexivity|constructor]. }
  split; [exact Hex|].
  apply (rle_packets_expand (rle_grey8_info 5) [x00]
           [x81; xff; x02; x10; x20; x30] [x07] [xff; xff; x10; x20; x30]).
  - reflexivity.
  - vm_compute. discriminate.
  - exact Hex.
  - reflexivity.
Defined.

(** The 5-5-5 row of the dispatch: for a format descriptor with two bytes
    per pixel that is neither indexed nor grey, [getPixel] reads the
    little-endian word [w], takes bits 14-10, 9-5 and 4-0 as red, green and
    blue, expands each 5-bit value [v] to [(v << 3) | (v >> 2)] and sets
    alpha to 255.  [createTgaInfo] gives such a descriptor only for type
    codes whose low two bits are clear, so not for the true-color types 2
    and 10. *)
Theorem two_byte_entry_is_555 (info : TgaInfo) (imageData : list byte)
    (colorMap : option (list byte)) (index : Z) (lo hi : byte) :
  pixelSize info = 2 -> isIndexed info = false -> isGrey info = false ->
  0 <= index ->
  get imageData (index * 2) = num (b2z lo) ->
  get imageData (index * 2 + 1) = num (b2z hi) ->
  let w := b2z lo + 256 * b2z hi in
  getPixel info imageData colorMap index =
    Ok [num (expand5 (channel5 w 10)); num (expand5 (channel5 w 5));
        num (expand5 (channel5 w 0)); num 255] /\
  getColorFrom2ByteEntry [lo; hi] =
    [num (expand5 (channel5 w 10)); num (expand5 (channel5 w 5));
     num (expand5 (channel5 w 0)); num 255] /\
  getColorFrom2ByteEntry [x00; x7c] = [num 255; num 0; num 0; num 255].
Proof.
  intros Hps Hidx Hgrey Hi Hlo Hhi w. split; [|split].
  - unfold getPixel. rewrite Hps, Hidx, Hgrey. f_equal.
    apply getColorFrom2ByteEntry_555.
    + rewrite get_subarray by lia. now rewrite Z.add_0_r.
    + rewrite get_subarray by lia. assumption.
  - now apply getColorFrom2ByteEntry_555.
  - vm_compute. reflexivity.
Qed.

Lemma two_byte_entry_is_555_witness :
  pixelSize plain16_info = 2 /\ isIndexed plain16_info = false /\
  isGrey plain16_info = false /\
  getPixel plain16_info [x00; x7c] None 0 =
    Ok [num 255; num 0; num 0; num 255].
Proof.
  split; [reflexivity|]. split; [reflexivity|]. split; [reflexivity|].
  apply (two_byte_entry_is_555 plain16_info [x00; x7c] None 0 x00 x7c);
    reflexivity.
Defined.

(** C5, not met by the code: [getColorFrom2ByteEntry] does decode a word as
    5-5-5 RGB (the entry [0x00 0x7C] gives red 255), but the translator never
    reaches it for a true-color image.  For every header with type code 2 or
    10 and a pixel depth of 16, [createTgaInfo] sets [isGrey], and [getPixel]
    returns the first byte of the pixel as red, green and blue, with the
    second byte as alpha when the alpha depth is 8 and alpha 255 otherwise.
    The pixel [0x00 0x7C] comes out with red 0, and the 1x1 image that holds
    it decodes to (0, 0, 0, 255).  This is the slip of C1, seen from the
    pixel translator. *)
Theorem true_color_16bit_read_as_grey (h : TgaHeader) (imageData : list byte)
    (colorMap : option (list byte)) (index : nat) :
  getPixel (createTgaInfo (with_type_and_depth h IMAGE_TYPE.RGB 16))
    imageData colorMap (Z.of_nat index) =
    Ok [get imageData (Z.of_nat index * 2); get imageData (Z.of_nat index * 2);
        get imageData (Z.of_nat index * 2);
        if band (descriptor h) 15 =? 8
        then get imageData (Z.of_nat index * 2 + 1) else num 255] /\
  getPixel (createTgaInfo (with_type_and_depth h IMAGE_TYPE.RLE_RGB 16))
    imageData colorMap (Z.of_nat index) =
    Ok [get imageData (Z.of_nat index * 2); get imageData (Z.of_nat index * 2);
        get imageData (Z.of_nat index * 2);
        if band (descriptor h) 15 =? 8
        then get imageData (Z.of_nat index * 2 + 1) else num 255] /\
  getColorFrom2ByteEntry [x00; x7c] = [num 255; num 0; num 0; num 255] /\
  getPixel (createTgaInfo (with_type_and_depth h IMAGE_TYPE.RGB 16))
    [x00; x7c] colorMap 0 =
    Ok [num 0; num 0; num 0;
        if band (descriptor h) 15 =? 8 then num 124 else num 255] /\
  parseTgaData (header_bytes x02 x01 x01 x10 x00 ++ [x00; x7c]) =
    Ok {| Image.imageData := [x00; x00; x00; xff];
          Image.width := 1; Image.height := 1 |}.
Proof.
  assert (Hgrey : forall t : Z,
             t = IMAGE_TYPE.RGB \/ t = IMAGE_TYPE.RLE_RGB ->
             forall (pixels : list byte) (i : Z), 0 <= i ->
               getPixel (createTgaInfo (with_type_and_depth h t 16))
                 pixels colorMap i =
               Ok [get pixels (i * 2); get pixels (i * 2); get pixels (i * 2);
                   if band (descriptor h) 15 =? 8
                   then get pixels (i * 2 + 1) else num 255]).
  { intros t Ht pixels i Hi. unfold getPixel.
    cbn [createTgaInfo with_type_and_depth pixelSize isIndexed isGrey alphaDepth
         imageType pixelDepth descriptor].
    change (sar 16 3) with 2.
    destruct Ht as [-> | ->]; cbn [IMAGE_TYPE.RGB IMAGE_TYPE.RLE_RGB];
      (unfold getGreyColorFrom2ByteEntry;
       rewrite !get_subarray by lia; now rewrite Z.add_0_r). }
  split; [apply Hgrey; [now left|lia]|].
  split; [apply Hgrey; [now right|lia]|].
  split; [vm_compute; reflexivity|].
  split; [|vm_compute; reflexivity].
  rewrite Hgrey by (lia || now left).
  destruct (band (descriptor h) 15 =? 8); reflexivity.
Qed.

(** C6: on a buffer shorter than 18 bytes [readHeader], and with it
    [parseTgaData], throws the not-enough-data error of [readItem], for the
    first header field whose end lies behind the end of the buffer; and
    [readItem] reads the two bytes [0x34 0x12] as [0x1234]. *)
Theorem short_buffer_fails (data : list byte) :
  Z.of_nat (length data) < 18 ->
  (exists s e : Z,
      first_missing_field (Z.of_nat (length data)) = Some (s, e) /\
      Z.of_nat (length data) < e /\
      readHeader data 0 = Throw (NotEnoughData s e) /\
      parseTgaData data = Throw (NotEnoughData s e)) /\
  readItem [x34; x12] 0 2 = Ok (4660, 2).
Proof.
  intros Hlen. split; [|vm_compute; reflexivity].
  destruct (readHeader_truncated data Hlen) as (s & e & Hf & Hr).
  exists s, e. repeat split; try assumption.
  - unfold first_missing_field in Hf. apply find_some in Hf.
    destruct Hf as [_ Hf]. cbn [snd] in Hf. lia.
  - unfold parseTgaData. rewrite Hr. reflexivity.
Qed.

Lemma short_buffer_fails_witness :
  Z.of_nat (length [x00; x00; x02; x00]) < 18 /\
  readHeader [x00; x00; x02; x00] 0 = Throw (NotEnoughData 3 5) /\
  parseTgaData [x00; x00; x02; x00] = Throw (NotEnoughData 3 5).
Proof.
  assert (Hlen : Z.of_nat (length [x00; x00; x02; x00]) < 18) by (simpl; lia).
  split; [exact Hlen|].
  destruct (short_buffer_fails [x00; x00; x02; x00] Hlen)
    as [(s & e & Hf & _ & Hr & Hp) _].
  vm_compute in Hf. injection Hf as <- <-.
  split; assumption.
Defined.

(** C7 (as stated, refuted): the color map [0xAA 0xBB 0xCC] has one entry of
    three bytes and the pixel asks for entry 5, yet the lookup returns a
    color and the image decodes. *)
Lemma palette_index_past_end_decodes :
  Z.of_nat (length [xaa; xbb; xcc]) <= 5 * colorMapEntrySize indexed24_info /\
  getColorMapPixel indexed24_info (Some [xaa; xbb; xcc]) 5 =
    Ok [undefined; undefined; undefined; num 255] /\
  parseTgaData (indexed_header_bytes x00 x00 x01 ++ [xaa; xbb; xcc; x05]) =
    Ok {| Image.imageData := [x00; x00; x00; xff];
          Image.width := 1; Image.height := 1 |} /\
  ~ (exists e : error,
        parseTgaData (indexed_header_bytes x00 x00 x01 ++ [xaa; xbb; xcc; x05]) =
          Throw e).
Proof.
  split; [vm_compute; discriminate|].
  split; [vm_compute; reflexivity|].
  split; [vm_compute; reflexivity|].
  intros [e He]. vm_compute in He. discriminate.
Qed.

(** C7 (amended): a palette index at or past the end of the color-map region
    does not make the lookup fail.  The slice of the region is empty, its
    bytes read as [undefined], and for an entry size of 2, 3 or 4 the lookup
    returns a color that is stored as red, green and blue 0 with alpha 255
    (alpha 0 when the entry size is 4 and the alpha depth is 8); for any
    other entry size it throws the unsupported-entry-size error. *)
Theorem palette_index_past_end (info : TgaInfo) (colorMap : list byte) (index : Z) :
  0 <= index ->
  Z.of_nat (length colorMap) <= index * colorMapEntrySize info ->
  (colorMapEntrySize info = 2 \/ colorMapEntrySize info = 3 \/
   colorMapEntrySize info = 4 ->
   exists pixel : list jsval,
     getColorMapPixel info (Some colorMap) index = Ok pixel /\
     toUint8Clamp (item pixel 0) = x00 /\
     toUint8Clamp (item pixel 1) = x00 /\
     toUint8Clamp (item pixel 2) = x00 /\
     toUint8Clamp (item pixel 3) =
       (if (colorMapEntrySize info =? 4) && (alphaDepth info =? 8)
        then x00 else xff)) /\
  (colorMapEntrySize info <> 2 -> colorMapEntrySize info <> 3 ->
   colorMapEntrySize info <> 4 ->
   getColorMapPixel info (Some colorMap) index =
     Throw (UnsupportedColorMapEntrySize (colorMapEntrySize info))).
Proof.
  intros Hi Hlen. rewrite (getColorMapPixel_past_end info colorMap index Hi Hlen).
  split.
  - intros [E|[E|E]]; rewrite E; eexists; (split; [reflexivity|]);
      cbn [Z.eqb Pos.eqb andb]; try (repeat split; reflexivity).
    destruct (alphaDepth info =? 8); repeat split; reflexivity.
  - intros H2 H3 H4.
    destruct (colorMapEntrySize info) as [|[[[]|[]|]|[[]|[]|]|]|];
      try reflexivity; congruence.
Qed.

Lemma palette_index_past_end_witness :
  0 <= 5 /\
  Z.of_nat (length [xaa; xbb; xcc]) <= 5 * colorMapEntrySize indexed24_info /\
  exists pixel : list jsval,
    getColorMapPixel indexed24_info (Some [xaa; xbb; xcc]) 5 = Ok pixel /\
    toUint8Clamp (item pixel 0) = x00 /\
    toUint8Clamp (item pixel 1) = x00 /\
    toUint8Clamp (item pixel 2) = x00 /\
    toUint8Clamp (item pixel 3) = xff.
Proof.
  assert (H0 : 0 <= 5) by lia.
  assert (H1 : Z.of_nat (length [xaa; xbb; xcc])
               <= 5 * colorMapEntrySize indexed24_info)
    by (vm_compute; discriminate).
  split; [exact H0|]. split; [exact H1|].
  apply (proj1 (palette_index_past_end indexed24_info [xaa; xbb; xcc] 5 H0 H1)).
  right. left. reflexivity.
Defined.

(** C8: on the RLE path the buffer is allocated with
    [pixelCount * pixelSize] bytes and the call either returns a buffer of
    exactly that length or fails with the range error of [set]; no write
    lands outside the allocation.  A raw packet that runs past the end has
    its excess dropped, a run-length packet that runs past the end makes the
    call fail. *)
Theorem rle_output_within_allocation (data : list byte) (info : TgaInfo)
    (pointer : Z) :
  isRle info = true ->
  0 <= pixelSize info -> 0 <= pixelCount info ->
  match readImageData data info pointer with
  | Ok (result, _) =>
      Z.of_nat (length result) = pixelCount info * pixelSize info
  | Throw e => e = OffsetOutOfBounds
  | Fuel => False
  end /\
  readImageData [x04; x10; x20; x30; x40; x50] (rle_grey8_info 3) 0 =
    Ok ([x10; x20; x30], 6) /\
  readImageData [x84; x10] (rle_grey8_info 3) 0 = Throw OffsetOutOfBounds.
Proof.
  intros Hrle Hps Hpc. split; [|split; vm_compute; reflexivity].
  pose proof (readImageData_no_fuel data info pointer Hps Hpc) as Hnf.
  unfold readImageData in *. rewrite Hrle in *. cbn [negb] in *.
  destruct (new_array _) as [buffer| |] eqn:En; cbn [mbind outcome_bind] in *.
  - apply new_array_length in En.
    destruct (rle_loop _ _ _ _ _ _ _) as [[r p]| |] eqn:El.
    + apply rle_loop_length in El. lia.
    + now apply rle_loop_throw in El.
    + congruence.
  - unfold new_array in En. destruct (Z.ltb_spec (pixelCount info * pixelSize info) 0);
      [nia|discriminate].
  - congruence.
Qed.

Lemma rle_output_within_allocation_witness :
  isRle (rle_grey8_info 3) = true /\
  0 <= pixelSize (rle_grey8_info 3) /\ 0 <= pixelCount (rle_grey8_info 3) /\
  match readImageData [x04; x10; x20; x30; x40; x50] (rle_grey8_info 3) 0 with
  | Ok (result, _) => Z.of_nat (length result) = 3
  | Throw e => e = OffsetOutOfBounds
  | Fuel => False
  end.
Proof.
  assert (H1 : isRle (rle_grey8_info 3) = true) by reflexivity.
  assert (H2 : 0 <= pixelSize (rle_grey8_info 3)) by (vm_compute; discriminate).
  assert (H3 : 0 <= pixelCount (rle_grey8_info 3)) by (vm_compute; discriminate).
  split; [exact H1|]. split; [exact H2|]. split; [exact H3|].
  exact (proj1 (rle_output_within_allocation
                  [x04; x10; x20; x30; x40; x50] (rle_grey8_info 3) 0 H1 H2 H3)).
Defined.

(** C9: the header that [readHeader] returns holds every field as the bytes
    give it (little-endian, at the field's offset), except that a color-map
    entry depth read as 15 is recorded as 16; every other value of that field
    is recorded unchanged. *)
Theorem entry_depth_15_recorded_as_16 (data : list byte) (h : TgaHeader) (p : Z) :
  readHeader data 0 = Ok (h, p) ->
  colorMapEntryDepth h =
    (if littleEndian data 7 1 =? 15 then 16 else littleEndian data 7 1) /\
  idLength h = littleEndian data 0 1 /\
  colorMapType h = littleEndian data 1 1 /\
  imageType h = littleEndian data 2 1 /\
  colorMapStart h = littleEndian data 3 2 /\
  colorMapLength h = littleEndian data 5 2 /\
  xOrigin h = littleEndian data 8 2 /\
  yOrigin h = littleEndian data 10 2 /\
  width h = littleEndian data 12 2 /\
  height h = littleEndian data 14 2 /\
  pixelDepth h = littleEndian data 16 1 /\
  descriptor h = littleEndian data 17 1 /\
  p = 18.
Proof.
  intros H. apply readHeader_inv in H. destruct H as (_ & -> & ->).
  pose proof (normalizeEntryDepth_fields (raw_header data)) as F.
  cbv zeta in F.
  destruct F as (F1 & F2 & F3 & F4 & F5 & F6 & F7 & F8 & F9 & F10 & F11 & F12).
  split; [exact F6|]. split; [exact F1|]. split; [exact F2|].
  split; [exact F3|]. split; [exact F4|]. split; [exact F5|].
  split; [exact F7|]. split; [exact F8|]. split; [exact F9|].
  split; [exact F10|]. split; [exact F11|]. split; [exact F12|].
  reflexivity.
Qed.

Lemma entry_depth_15_recorded_as_16_witness :
  readHeader [x00; x01; x01; x00; x00; x02; x00; x0f; x00; x00; x00; x00;
              x01; x00; x01; x00; x08; x00] 0 =
    Ok ({| idLength := 0; colorMapType := 1; imageType := 1;
           colorMapStart := 0; colorMapLength := 2; colorMapEntryDepth := 16;
           xOrigin := 0; yOrigin := 0; width := 1; height := 1;
           pixelDepth := 8; descriptor := 0 |}, 18) /\
  littleEndian [x00; x01; x01; x00; x00; x02; x00; x0f; x00; x00; x00; x00;
                x01; x00; x01; x00; x08; x00] 7 1 = 15 /\
  16 = (if 15 =? 15 then 16 else 15).
Proof.
  assert (Hr : readHeader [x00; x01; x01; x00; x00; x02; x00; x0f; x00; x00;
                           x00; x00; x01; x00; x01; x00; x08; x00] 0 =
               Ok ({| idLength := 0; colorMapType := 1; imageType := 1;
                      colorMapStart := 0; colorMapLength := 2;
                      colorMapEntryDepth := 16;
                      xOrigin := 0; yOrigin := 0; width := 1; height := 1;
                      pixelDepth := 8; descriptor := 0 |}, 18))
    by (vm_compute; reflexivity).
  split; [exact Hr|]. split; [reflexivity|].
  exact (proj1 (entry_depth_15_recorded_as_16 _ _ _ Hr)).
Defined.



(** * Further properties of the decoder *)

(** ** readItem on fields of up to three bytes *)

Lemma littleEndian_snoc (data : list byte) (n : nat) :
  forall s : Z,
    littleEndian data s (S n) =
    littleEndian data s n + 256 ^ Z.of_nat n * toInteger (get data (s + Z.of_nat n)).
Proof.
  induction n as [|n IH]; intros s.
  - cbn [littleEndian]. change (Z.of_nat 0) with 0.
    replace (s + 0) with s by lia. change (256 ^ 0) with 1. lia.
  - change (littleEndian data s (S (S n)))
      with (toInteger (get data s) + 256 * littleEndian data (s + 1) (S n)).
    rewrite (IH (s + 1)). cbn [littleEndian].
    replace (s + 1 + Z.of_nat n) with (s + Z.of_nat (S n)) by lia.
    rewrite (Nat2Z.inj_succ n), Z.pow_succ_r by lia. lia.
Qed.

Lemma bor_shl8_wide (acc b : Z) :
  0 <= acc -> acc * 256 + 256 <= 2 ^ 31 -> 0 <= b < 256 ->
  bor (shl acc 8) b = acc * 256 + b.
Proof.
  intros Hacc Hfit Hb. unfold bor, shl, toInt32.
  change (Z.land 8 31) with 8.
  rewrite (wrap32_small acc), (wrap32_small b) by lia.
  assert (E : Z.shiftl acc 8 = acc * 256) by (now rewrite Z.shiftl_mul_pow2 by lia).
  rewrite !(wrap32_small (Z.shiftl acc 8)) by lia.
  rewrite lor_shiftl_low; change (2 ^ 8) with 256; lia.
Qed.

Lemma readItem_loop_littleEndian (data : list byte) (n : nat) :
  forall (start acc : Z),
    0 <= start -> start + Z.of_nat n <= Z.of_nat (length data) ->
    0 <= acc -> (acc + 1) * 256 ^ Z.of_nat n <= 2 ^ 31 ->
    readItem_loop data n (start + Z.of_nat n - 1) acc =
    acc * 256 ^ Z.of_nat n + littleEndian data start n.
Proof.
  induction n as [|n IH]; intros start acc Hs Hlen Hacc Hfit.
  - cbn [readItem_loop littleEndian]. change (256 ^ Z.of_nat 0) with 1. lia.
  - cbn [readItem_loop].
    replace (start + Z.of_nat (S n) - 1) with (start + Z.of_nat n) by lia.
    destruct (get_in_range data (start + Z.of_nat n)) as [b Hb]; [lia|].
    pose proof (b2z_range b) as Hbr.
    rewrite (Nat2Z.inj_succ n), Z.pow_succ_r in Hfit by lia.
    assert (Hpow : 1 <= 256 ^ Z.of_nat n) by (apply Z.lt_pred_le, Z.pow_pos_nonneg; lia).
    rewrite Hb, bor_shl8_wide by nia.
    rewrite IH by nia.
    rewrite littleEndian_snoc, Hb. cbn [toInteger].
    rewrite (Nat2Z.inj_succ n), Z.pow_succ_r by lia. lia.
Qed.

(** X1: a field of zero to three bytes that lies within the buffer is read
    as its little-endian value, and the pointer moves behind the field. *)
Theorem readItem_reads_little_endian (data : list byte) (pointer length_ : Z) :
  0 <= pointer -> 0 <= length_ <= 3 ->
  pointer + length_ <= Z.of_nat (length data) ->
  readItem data pointer length_ =
    Ok (littleEndian data pointer (Z.to_nat length_), pointer + length_).
Proof.
  intros Hp Hl Hfit. rewrite readItem_fits by assumption.
  pose proof (readItem_loop_littleEndian data (Z.to_nat length_) pointer 0) as H.
  rewrite Z2Nat.id in H by lia. rewrite H; [reflexivity|lia|lia|lia|].
  assert (256 ^ length_ <= 256 ^ 3) by (apply Z.pow_le_mono_r; lia).
  change (256 ^ 3) with 16777216 in *. change (2 ^ 31) with 2147483648. lia.
Qed.

Lemma readItem_reads_little_endian_witness :
  readItem [x01; xaa; xbb; xcc; x02] 1 3 = Ok (13417386, 4).
Proof.
  apply (readItem_reads_little_endian [x01; xaa; xbb; xcc; x02] 1 3);
    simpl; lia.
Defined.

(** ** The header of a buffer *)

(** X2: [readHeader] succeeds exactly on the buffers of at least 18 bytes,
    and then it has consumed exactly 18 bytes. *)
Theorem readHeader_succeeds_iff (data : list byte) :
  (exists (h : TgaHeader) (p : Z), readHeader data 0 = Ok (h, p)) <->
  18 <= Z.of_nat (length data).
Proof.
  split.
  - intros (h & p & H). now apply readHeader_inv in H.
  - intros H. eexists _, _. now apply readHeader_complete.
Qed.

Lemma land15_range (x : Z) : 0 <= band x 15 <= 15.
Proof. unfold band. change (toInt32 15) with 15. apply land_range. lia. Qed.

Lemma normalized_header_ranges (data : list byte) :
  let h := normalizeEntryDepth (raw_header data) in
  (0 <= idLength h < 256 /\ 0 <= colorMapType h < 256 /\
   0 <= imageType h < 256 /\ 0 <= colorMapStart h < 65536 /\
   0 <= colorMapLength h < 65536 /\ 0 <= colorMapEntryDepth h < 256 /\
   colorMapEntryDepth h <> 15 /\
   0 <= xOrigin h < 65536 /\ 0 <= yOrigin h < 65536 /\
   0 <= width h < 65536 /\ 0 <= height h < 65536 /\
   0 <= pixelDepth h < 256 /\ 0 <= descriptor h < 256) /\
  (0 <= pixelSize (createTgaInfo h) <= 31 /\
   0 <= colorMapEntrySize (createTgaInfo h) <= 31 /\
   0 <= alphaDepth (createTgaInfo h) <= 15 /\
   0 <= pixelCount (createTgaInfo h) <= 65535 * 65535).
Proof.
  cbv zeta.
  pose proof (normalizeEntryDepth_fields (raw_header data)) as F.
  cbv zeta in F.
  destruct F as (F1 & F2 & F3 & F4 & F5 & F6 & F7 & F8 & F9 & F10 & F11 & F12).
  cbn [raw_header idLength colorMapType imageType colorMapStart colorMapLength
       colorMapEntryDepth xOrigin yOrigin width height pixelDepth descriptor]
    in F1, F2, F3, F4, F5, F6, F7, F8, F9, F10, F11, F12.
  pose proof (littleEndian_1_range data 0). pose proof (littleEndian_1_range data 1).
  pose proof (littleEndian_1_range data 2). pose proof (littleEndian_2_range data 3).
  pose proof (littleEndian_2_range data 5). pose proof (littleEndian_1_range data 7).
  pose proof (littleEndian_2_range data 8). pose proof (littleEndian_2_range data 10).
  pose proof (littleEndian_2_range data 12). pose proof (littleEndian_2_range data 14).
  pose proof (littleEndian_1_range data 16). pose proof (littleEndian_1_range data 17).
  assert (Hd : 0 <= colorMapEntryDepth (normalizeEntryDepth (raw_header data)) < 256
               /\ colorMapEntryDepth (normalizeEntryDepth (raw_header data)) <> 15).
  { rewrite F6. destruct (Z.eqb_spec (littleEndian data 7 1) 15); lia. }
  split.
  - rewrite F1, F2, F3, F4, F5, F7, F8, F9, F10, F11, F12.
    repeat (split; [lia|]). lia.
  - cbn [createTgaInfo pixelSize colorMapEntrySize alphaDepth pixelCount].
    split; [apply sar3_range; lia|].
    split; [apply sar3_range; lia|].
    split; [apply land15_range|].
    rewrite F9, F10. nia.
Qed.

(** X3: every header that [readHeader] returns has its one-byte fields below
    256 and its two-byte fields below 65536, its color-map entry depth is
    never 15, and the sizes that [createTgaInfo] derives from it are bounded:
    at most 31 bytes per pixel and per color-map entry, an alpha depth of at
    most 15, and a pixel count of at most 65535 * 65535. *)
Theorem header_fields_in_range (data : list byte) (h : TgaHeader) (p : Z) :
  readHeader data 0 = Ok (h, p) ->
  (0 <= idLength h < 256 /\ 0 <= colorMapType h < 256 /\
   0 <= imageType h < 256 /\ 0 <= colorMapStart h < 65536 /\
   0 <= colorMapLength h < 65536 /\ 0 <= colorMapEntryDepth h < 256 /\
   colorMapEntryDepth h <> 15 /\
   0 <= xOrigin h < 65536 /\ 0 <= yOrigin h < 65536 /\
   0 <= width h < 65536 /\ 0 <= height h < 65536 /\
   0 <= pixelDepth h < 256 /\ 0 <= descriptor h < 256) /\
  (0 <= pixelSize (createTgaInfo h) <= 31 /\
   0 <= colorMapEntrySize (createTgaInfo h) <= 31 /\
   0 <= alphaDepth (createTgaInfo h) <= 15 /\
   0 <= pixelCount (createTgaInfo h) <= 65535 * 65535).
Proof.
  intros H. apply readHeader_inv in H. destruct H as (_ & -> & _).
  apply normalized_header_ranges.
Qed.

Lemma header_fields_in_range_witness :
  readHeader (header_bytes x02 xff xff xff xff) 0 =
    Ok ({| idLength := 0; colorMapType := 0; imageType := 2;
           colorMapStart := 0; colorMapLength := 0; colorMapEntryDepth := 0;
           xOrigin := 0; yOrigin := 0; width := 255; height := 255;
           pixelDepth := 255; descriptor := 255 |}, 18) /\
  0 <= pixelSize
         (createTgaInfo
            {| idLength := 0; colorMapType := 0; imageType := 2;
               colorMapStart := 0; colorMapLength := 0; colorMapEntryDepth := 0;
               xOrigin := 0; yOrigin := 0; width := 255; height := 255;
               pixelDepth := 255; descriptor := 255 |}) <= 31.
Proof.
  assert (Hr : readHeader (header_bytes x02 xff xff xff xff) 0 =
    Ok ({| idLength := 0; colorMapType := 0; imageType := 2;
           colorMapStart := 0; colorMapLength := 0; colorMapEntryDepth := 0;
           xOrigin := 0; yOrigin := 0; width := 255; height := 255;
           pixelDepth := 255; descriptor := 255 |}, 18))
    by (vm_compute; reflexivity).
  split; [exact Hr|].
  exact (proj1 (proj2 (header_fields_in_range _ _ _ Hr))).
Defined.

(** ** The format classifier in arithmetic *)

Lemma sar3_div (x : Z) : 0 <= x < 256 -> sar x 3 = x / 8.
Proof.
  intros Hx. unfold sar, toInt32. change (Z.land 3 31) with 3.
  rewrite wrap32_small by lia. now rewrite Z.shiftr_div_pow2 by lia.
Qed.

(** X4: for a header whose one-byte fields are bytes, [createTgaInfo] marks
    the image as run-length encoded exactly when the type code is 8 or more
    (any code above 7, not only 9, 10 and 11), as indexed exactly for the
    codes 1 and 9, takes the whole bytes of the pixel depth and of the
    color-map entry depth as sizes (a depth that is no multiple of 8 is
    rounded down), and the low four bits of the descriptor as alpha depth. *)
Theorem createTgaInfo_arithmetic (h : TgaHeader) :
  0 <= imageType h < 256 -> 0 <= pixelDepth h < 256 ->
  0 <= colorMapEntryDepth h < 256 -> 0 <= descriptor h < 256 ->
  let info := createTgaInfo h in
  isRle info = (8 <=? imageType h) /\
  (isIndexed info = true <-> imageType h = 1 \/ imageType h = 9) /\
  pixelSize info = pixelDepth h / 8 /\
  colorMapEntrySize info = colorMapEntryDepth h / 8 /\
  alphaDepth info = descriptor h mod 16.
Proof.
  intros Ht Hp Hc Hd info. subst info.
  cbn [createTgaInfo isRle isIndexed pixelSize colorMapEntrySize alphaDepth].
  split; [|split; [|split; [|split]]].
  - rewrite sar3_div by assumption. unfold truthy.
    destruct (Z.leb_spec 8 (imageType h)) as [H8|H8].
    + assert (1 <= imageType h / 8) by (apply Z.div_le_lower_bound; lia).
      destruct (Z.eqb_spec (imageType h / 8) 0); [lia|reflexivity].
    + rewrite Z.div_small by lia. reflexivity.
  - rewrite orb_true_iff, !Z.eqb_eq. reflexivity.
  - now apply sar3_div.
  - now apply sar3_div.
  - unfold band, toInt32. rewrite (wrap32_small (descriptor h)) by lia.
    change (wrap32 15) with (Z.ones 4). rewrite Z.land_ones by lia. reflexivity.
Qed.

Lemma createTgaInfo_arithmetic_witness :
  isRle (createTgaInfo
           {| idLength := 0; colorMapType := 0; imageType := 8;
              colorMapStart := 0; colorMapLength := 0; colorMapEntryDepth := 15;
              xOrigin := 0; yOrigin := 0; width := 3; height := 2;
              pixelDepth := 15; descriptor := 40 |}) = true.
Proof.
  exact (proj1 (createTgaInfo_arithmetic
                  {| idLength := 0; colorMapType := 0; imageType := 8;
                     colorMapStart := 0; colorMapLength := 0;
                     colorMapEntryDepth := 15;
                     xOrigin := 0; yOrigin := 0; width := 3; height := 2;
                     pixelDepth := 15; descriptor := 40 |}
                  ltac:(simpl; lia) ltac:(simpl; lia)
                  ltac:(simpl; lia) ltac:(simpl; lia))).
Defined.

(** ** The color map and the uncompressed pixel data as regions of the buffer *)

(** X5: [readColorMap] returns [null] and leaves the pointer where it is
    when the color-map type is 0.  Otherwise, when the buffer holds at the
    pointer the [colorMapLength * (colorMapEntryDepth >> 3)] bytes of the
    color map, it returns exactly these bytes and moves the pointer behind
    them. *)
Theorem readColorMap_region (info : TgaInfo) (before colorMap after : list byte) :
  (colorMapType (hdr info) = 0 ->
   readColorMap (before ++ colorMap ++ after) info (Z.of_nat (length before)) =
     (None, Z.of_nat (length before))) /\
  (colorMapType (hdr info) <> 0 ->
   Z.of_nat (length colorMap) =
     colorMapLength (hdr info) * sar (colorMapEntryDepth (hdr info)) 3 ->
   readColorMap (before ++ colorMap ++ after) info (Z.of_nat (length before)) =
     (Some colorMap, Z.of_nat (length before) + Z.of_nat (length colorMap))).
Proof.
  unfold readColorMap, truthy. split.
  - intros ->. reflexivity.
  - intros Ht Hl. destruct (Z.eqb_spec (colorMapType (hdr info)) 0); [contradiction|].
    cbn [negb]. rewrite <- Hl, subarray_app_middle. reflexivity.
Qed.

Lemma readColorMap_region_witness :
  readColorMap ([x00; x00] ++ [xaa; xbb; xcc] ++ [x05]) indexed24_info 2 =
    (Some [xaa; xbb; xcc], 5).
Proof.
  apply (proj2 (readColorMap_region indexed24_info [x00; x00] [xaa; xbb; xcc] [x05]));
    [vm_compute; discriminate|reflexivity].
Defined.

(** X6: for an image that is not run-length encoded, when the buffer holds
    at the pointer the [pixelCount * pixelSize] bytes of the image,
    [readImageData] returns exactly these bytes and moves the pointer behind
    them. *)
Theorem readImageData_uncompressed (info : TgaInfo) (before pixels after : list byte) :
  isRle info = false ->
  Z.of_nat (length pixels) = pixelCount info * pixelSize info ->
  readImageData (before ++ pixels ++ after) info (Z.of_nat (length before)) =
    Ok (pixels, Z.of_nat (length before) + Z.of_nat (length pixels)).
Proof.
  intros Hrle Hl. unfold readImageData. rewrite Hrle. cbn [negb].
  rewrite <- Hl, subarray_app_middle. reflexivity.
Qed.

Lemma readImageData_uncompressed_witness :
  isRle plain16_info = false /\
  readImageData ([x07] ++ [x00; x7c] ++ [x09]) plain16_info 1 =
    Ok ([x00; x7c], 3).
Proof.
  split; [reflexivity|].
  apply (readImageData_uncompressed plain16_info [x07] [x00; x7c] [x09]);
    reflexivity.
Defined.

(** ** The pointer only moves forward *)

Lemma rle_loop_pointer (fuel : nat) (data : list byte) (pixelSize total : Z) :
  0 <= pixelSize ->
  forall (result : list byte) (current pointer : Z) (r : list byte) (p : Z),
    rle_loop fuel data pixelSize total result current pointer = Ok (r, p) ->
    pointer <= p.
Proof.
  intros Hps. induction fuel as [|fuel IH]; intros result current pointer r p;
    cbn [rle_loop]; destruct (current <? total); try discriminate;
    try (intros [= <- <-]; lia).
  pose proof (packet_count_range (get data pointer)) as Hn.
  destruct (_ =? 1).
  - destruct (copy_pixels _ _ _ _ _) as [[r' c']| |];
      cbn [mbind outcome_bind]; try discriminate.
    intros H. apply IH in H. lia.
  - pose proof (copy_bytes_spec data
                  (Z.to_nat ((band (get data pointer) 127 + 1) * pixelSize))
                  result current (pointer + 1)) as Hc.
    destruct (copy_bytes _ _ _ _ _) as [[r' c'] p'].
    intros H. apply IH in H. lia.
Qed.

(** X7: the read pointer is never moved back.  For the format descriptor of
    any header that [readHeader] returns, the pointer that [readColorMap]
    hands on is at or behind the one it was given, and so is the pointer
    that [readImageData] hands on when it returns, on both the uncompressed
    and the run-length path. *)
Theorem pointer_moves_forward (data header_data : list byte) (h : TgaHeader)
    (p0 pointer : Z) :
  readHeader header_data 0 = Ok (h, p0) ->
  pointer <= snd (readColorMap data (createTgaInfo h) pointer) /\
  (forall (raw : list byte) (p : Z),
      readImageData data (createTgaInfo h) pointer = Ok (raw, p) ->
      pointer <= p).
Proof.
  intros Hh.
  apply readHeader_inv in Hh. destruct Hh as (_ & -> & _).
  pose proof (normalized_header_ranges header_data)
    as ((_ & _ & _ & _ & Hcl & Hcd & _) & (Hps & Hce & _ & Hpc)).
  set (h := normalizeEntryDepth (raw_header header_data)) in *.
  split.
  - unfold readColorMap. destruct (negb _); cbn [snd]; [lia|].
    change (colorMapLength (hdr (createTgaInfo h))) with (colorMapLength h).
    change (sar (colorMapEntryDepth (hdr (createTgaInfo h))) 3)
      with (colorMapEntrySize (createTgaInfo h)).
    assert (0 <= colorMapLength h * colorMapEntrySize (createTgaInfo h))
      by (apply Z.mul_nonneg_nonneg; lia).
    lia.
  - intros raw p. unfold readImageData. destruct (negb _).
    + intros [= _ <-].
      change (width h * height h) with (pixelCount (createTgaInfo h)).
      change (sar (pixelDepth h) 3) with (pixelSize (createTgaInfo h)).
      assert (0 <= pixelCount (createTgaInfo h) * pixelSize (createTgaInfo h))
        by (apply Z.mul_nonneg_nonneg; lia).
      lia.
    + destruct (new_array _); cbn [mbind outcome_bind]; try discriminate.
      apply rle_loop_pointer. lia.
Qed.

Lemma pointer_moves_forward_witness :
  18 <= snd (readColorMap (indexed_header_bytes x00 x00 x02 ++ [xaa; xbb; xcc])
               indexed24_info 18).
Proof.
  assert (Hr : readHeader (indexed_header_bytes x00 x00 x01) 0 =
               Ok ({| idLength := 0; colorMapType := 1; imageType := 1;
                      colorMapStart := 0; colorMapLength := 1;
                      colorMapEntryDepth := 24;
                      xOrigin := 0; yOrigin := 0; width := 1; height := 1;
                      pixelDepth := 8; descriptor := 0 |}, 18))
    by (vm_compute; reflexivity).
  exact (proj1 (pointer_moves_forward
                  (indexed_header_bytes x00 x00 x02 ++ [xaa; xbb; xcc])
                  _ _ _ 18 Hr)).
Defined.

(** ** The rows of the pixel dispatch *)

(** X8: a pixel of three bytes is read as blue, green, red and returned as
    red, green, blue with alpha 255, whatever the indexed and grey flags say
    and whether or not there is a color map: a color-mapped image with 24-bit
    pixels is not looked up in its color map. *)
Theorem three_byte_pixel_is_bgr (info : TgaInfo) (imageData : list byte)
    (colorMap : option (list byte)) (index : Z) :
  pixelSize info = 3 -> 0 <= index ->
  getPixel info imageData colorMap index =
    Ok [get imageData (index * 3 + 2); get imageData (index * 3 + 1);
        get imageData (index * 3); num 255].
Proof.
  intros Hps Hi. unfold getPixel. rewrite Hps. unfold getColorFrom3ByteEntry.
  rewrite !get_subarray by lia. now rewrite Z.add_0_r.
Qed.

Lemma three_byte_pixel_is_bgr_witness :
  pixelSize indexed_bgr24_info = 3 /\
  getPixel indexed_bgr24_info [x01; x02; x03; x10; x20; x30]
    (Some [xaa; xbb; xcc]) 1 =
    Ok [num 48; num 32; num 16; num 255].
Proof.
  split; [reflexivity|].
  apply (three_byte_pixel_is_bgr indexed_bgr24_info
           [x01; x02; x03; x10; x20; x30] (Some [xaa; xbb; xcc]) 1);
    [reflexivity|lia].
Defined.

(** X9: a pixel of four bytes is read as blue, green, red, alpha; the alpha
    byte is used only when the alpha depth of the descriptor is exactly 8,
    otherwise alpha is 255. *)
Theorem four_byte_pixel_is_bgra (info : TgaInfo) (imageData : list byte)
    (colorMap : option (list byte)) (index : Z) :
  pixelSize info = 4 -> 0 <= index ->
  getPixel info imageData colorMap index =
    Ok [get imageData (index * 4 + 2); get imageData (index * 4 + 1);
        get imageData (index * 4);
        if alphaDepth info =? 8 then get imageData (index * 4 + 3) else num 255].
Proof.
  intros Hps Hi. unfold getPixel. rewrite Hps. unfold getColorFrom4ByteEntry.
  rewrite !get_subarray by lia. now rewrite Z.add_0_r.
Qed.

Lemma four_byte_pixel_is_bgra_witness :
  pixelSize (bgra32_info 4) = 4 /\
  getPixel (bgra32_info 4) [x10; x20; x30; x40] None 0 =
    Ok [num 48; num 32; num 16; num 255].
Proof.
  split; [reflexivity|].
  apply (four_byte_pixel_is_bgra (bgra32_info 4) [x10; x20; x30; x40] None 0);
    [reflexivity|lia].
Defined.

(** X10: for an image that is grey and not indexed, a pixel of one byte
    gives that byte as red, green and blue with alpha 255, and a pixel of
    two bytes gives its first byte as red, green and blue and its second
    byte as alpha when the alpha depth is exactly 8, alpha 255 otherwise. *)
Theorem grey_pixel (info : TgaInfo) (imageData : list byte)
    (colorMap : option (list byte)) (index : Z) :
  isIndexed info = false -> isGrey info = true ->
  pixelSize info = 1 \/ pixelSize info = 2 -> 0 <= index ->
  let grey := get imageData (index * pixelSize info) in
  getPixel info imageData colorMap index =
    Ok [grey; grey; grey;
        if (pixelSize info =? 2) && (alphaDepth info =? 8)
        then get imageData (index * pixelSize info + 1) else num 255].
Proof.
  intros Hidx Hgrey Hps Hi grey. subst grey. unfold getPixel.
  rewrite Hidx, Hgrey. destruct Hps as [-> | ->]; cbn [Z.eqb Pos.eqb andb].
  - unfold getColorFrom1ByteEntry. rewrite !get_subarray by lia.
    now rewrite Z.add_0_r.
  - unfold getGreyColorFrom2ByteEntry. rewrite !get_subarray by lia.
    now rewrite Z.add_0_r.
Qed.

Lemma grey_pixel_witness :
  isIndexed grey16_info = false /\ isGrey grey16_info = true /\
  getPixel grey16_info [x80; x40] None 0 =
    Ok [num 128; num 128; num 128; num 64].
Proof.
  split; [reflexivity|]. split; [reflexivity|].
  apply (grey_pixel grey16_info [x80; x40] None 0);
    [reflexivity|reflexivity|right; reflexivity|lia].
Defined.

Lemma parse_loop_first_throw (info : TgaInfo) (imageData : list byte)
    (colorMap : option (list byte)) (n : nat) (i : Z) (displayData : list byte)
    (e : error) :
  getPixel info imageData colorMap i = Throw e ->
  parse_loop info imageData colorMap (S n) i displayData = Throw e.
Proof.
  intros H. cbn [parse_loop]. rewrite H. reflexivity.
Qed.

(** X11: an uncompressed image with at least one pixel whose pixel size is
    not 1, 2, 3 or 4 bytes does not decode: the translation of the first
    pixel throws the unsupported-pixel-size error with the size taken from
    the header, whatever the pixel bytes are.  The image has at most as many
    pixels as the buffer has bytes. *)
Theorem unsupported_pixel_size (data : list byte) (h : TgaHeader) (p : Z) :
  readHeader data 0 = Ok (h, p) ->
  isRle (createTgaInfo h) = false ->
  pixelSize (createTgaInfo h) <> 1 -> pixelSize (createTgaInfo h) <> 2 ->
  pixelSize (createTgaInfo h) <> 3 -> pixelSize (createTgaInfo h) <> 4 ->
  1 <= pixelCount (createTgaInfo h) <= Z.of_nat (length data) ->
  parseTgaData data = Throw (UnsupportedPixelSize (pixelSize (createTgaInfo h))).
Proof.
  intros Hh Hrle H1 H2 H3 H4 Hpc. unfold parseTgaData. rewrite Hh.
  cbn [mbind outcome_bind].
  destruct (readColorMap _ _ _) as [colorMap p'].
  unfold readImageData. rewrite Hrle. cbn [negb mbind outcome_bind].
  unfold parseImageData, new_array.
  destruct (Z.ltb_spec (pixelCount (createTgaInfo h) * 4) 0); [lia|].
  cbn [mbind outcome_bind].
  destruct (Z.to_nat (pixelCount (createTgaInfo h))) as [|n] eqn:En; [lia|].
  rewrite (parse_loop_first_throw _ _ _ _ _ _
             (UnsupportedPixelSize (pixelSize (createTgaInfo h))));
    [reflexivity|].
  unfold getPixel.
  destruct (pixelSize (createTgaInfo h)) as [|[[[]|[]|]|[[]|[]|]|]|];
    try reflexivity; congruence.
Qed.

Lemma unsupported_pixel_size_witness :
  readHeader (header_bytes x02 x02 x01 x28 x00 ++ [x01; x02; x03; x04; x05]) 0 =
    Ok ({| idLength := 0; colorMapType := 0; imageType := 2;
           colorMapStart := 0; colorMapLength := 0; colorMapEntryDepth := 0;
           xOrigin := 0; yOrigin := 0; width := 2; height := 1;
           pixelDepth := 40; descriptor := 0 |}, 18) /\
  parseTgaData (header_bytes x02 x02 x01 x28 x00 ++ [x01; x02; x03; x04; x05]) =
    Throw (UnsupportedPixelSize 5).
Proof.
  assert (Hr : readHeader (header_bytes x02 x02 x01 x28 x00
                           ++ [x01; x02; x03; x04; x05]) 0 =
               Ok ({| idLength := 0; colorMapType := 0; imageType := 2;
                      colorMapStart := 0; colorMapLength := 0;
                      colorMapEntryDepth := 0;
                      xOrigin := 0; yOrigin := 0; width := 2; height := 1;
                      pixelDepth := 40; descriptor := 0 |}, 18))
    by (vm_compute; reflexivity).
  split; [exact Hr|].
  apply (unsupported_pixel_size _ _ _ Hr);
    try reflexivity; try (vm_compute; discriminate).
  split; vm_compute; discriminate.
Defined.

(** ** Indexed pixels *)

Lemma getColorMapPixel_three_bytes (info : TgaInfo) (colorMap : list byte) (v : Z) :
  colorMapEntrySize info = 3 -> 0 <= v ->
  getColorMapPixel info (Some colorMap) v =
    Ok [get colorMap (v * 3 + 2); get colorMap (v * 3 + 1);
        get colorMap (v * 3); num 255].
Proof.
  intros Hs Hv. unfold getColorMapPixel. cbn [mul add]. rewrite Hs.
  unfold getColorFrom3ByteEntry. rewrite !get_subarray by lia.
  now rewrite Z.add_0_r.
Qed.

(** X12: in an indexed image with pixels of one or two bytes and color-map
    entries of three bytes, a pixel that lies within the pixel data is the
    little-endian palette index [v], and its color is the blue, green, red
    entry that starts [3 * v] bytes into the color map, returned as red,
    green, blue with alpha 255. *)
Theorem indexed_pixel_lookup (info : TgaInfo) (imageData colorMap : list byte)
    (index : Z) :
  isIndexed info = true ->
  pixelSize info = 1 \/ pixelSize info = 2 ->
  colorMapEntrySize info = 3 ->
  0 <= index ->
  (index + 1) * pixelSize info <= Z.of_nat (length imageData) ->
  let v := littleEndian imageData (index * pixelSize info)
             (Z.to_nat (pixelSize info)) in
  getPixel info imageData (Some colorMap) index =
    Ok [get colorMap (v * 3 + 2); get colorMap (v * 3 + 1);
        get colorMap (v * 3); num 255].
Proof.
  intros Hidx Hps Hs Hi Hlen v. subst v. unfold getPixel. rewrite Hidx.
  destruct Hps as [E|E]; rewrite E in *;
    [change (Z.to_nat 1) with 1%nat|change (Z.to_nat 2) with 2%nat].
  - rewrite get_subarray by lia. rewrite Z.add_0_r.
    destruct (get_in_range imageData (index * 1)) as [b Hb]; [lia|].
    cbn [littleEndian]. rewrite Hb. cbn [toInteger].
    rewrite Z.mul_0_r, Z.add_0_r.
    apply getColorMapPixel_three_bytes; [assumption|apply b2z_range].
  - rewrite !get_subarray by lia. rewrite Z.add_0_r.
    destruct (get_in_range imageData (index * 2)) as [lo Hlo]; [lia|].
    destruct (get_in_range imageData (index * 2 + 1)) as [hi Hhi]; [lia|].
    cbn [littleEndian]. rewrite Hlo, Hhi. cbn [toInteger].
    pose proof (b2z_range lo). pose proof (b2z_range hi).
    rewrite bor_shl8 by assumption.
    replace (b2z lo + 256 * (b2z hi + 256 * 0)) with (b2z hi * 256 + b2z lo) by lia.
    apply getColorMapPixel_three_bytes; [assumption|lia].
Qed.

Lemma indexed_pixel_lookup_witness :
  getPixel indexed24_info [x02]
    (Some [x01; x02; x03; x04; x05; x06; xaa; xbb; xcc]) 0 =
    Ok [num 204; num 187; num 170; num 255].
Proof.
  apply (indexed_pixel_lookup indexed24_info [x02]
           [x01; x02; x03; x04; x05; x06; xaa; xbb; xcc] 0);
    [reflexivity|left; reflexivity|reflexivity|lia|vm_compute; discriminate].
Defined.

(** ** The translated image, pixel by pixel *)

Lemma put_lookup_eq (a : list byte) (i : Z) (b : byte) :
  0 <= i < Z.of_nat (length a) -> put a i b !! Z.to_nat i = Some b.
Proof.
  intros Hi. unfold put. destruct (Z.ltb_spec i 0); [lia|].
  apply list_lookup_insert_eq. lia.
Qed.

Lemma put_lookup_ne (a : list byte) (i : Z) (b : byte) (j : nat) :
  0 <= i -> Z.to_nat i <> j -> put a i b !! j = a !! j.
Proof.
  intros Hi Hne. unfold put. destruct (Z.ltb_spec i 0); [lia|].
  now apply list_lookup_insert_ne.
Qed.

Lemma parse_loop_pixels (info : TgaInfo) (imageData : list byte)
    (colorMap : option (list byte)) (n : nat) :
  forall (i : Z) (displayData out : list byte),
    0 <= i -> 4 * (i + Z.of_nat n) <= Z.of_nat (length displayData) ->
    parse_loop info imageData colorMap n i displayData = Ok out ->
    (forall idx : nat, Z.of_nat idx < 4 * i -> out !! idx = displayData !! idx) /\
    (forall j : Z, i <= j < i + Z.of_nat n ->
       exists pixel : list jsval,
         getPixel info imageData colorMap j = Ok pixel /\
         out !! Z.to_nat (4 * j) = Some (toUint8Clamp (item pixel 0)) /\
         out !! Z.to_nat (4 * j + 1) = Some (toUint8Clamp (item pixel 1)) /\
         out !! Z.to_nat (4 * j + 2) = Some (toUint8Clamp (item pixel 2)) /\
         out !! Z.to_nat (4 * j + 3) = Some (toUint8Clamp (item pixel 3))).
Proof.
  induction n as [|n IH]; intros i displayData out Hi Hlen; cbn [parse_loop].
  - intros [= <-]. split; [reflexivity|]. intros j Hj. lia.
  - destruct (getPixel info imageData colorMap i) as [pixel| |] eqn:Ep;
      cbn [mbind outcome_bind]; try discriminate.
    intros H. apply IH in H; [|lia|rewrite !put_length; lia].
    destruct H as [Hlow Hpix].
    assert (Hput : forall idx : nat,
               Z.of_nat idx < 4 * i ->
               put (put (put (put displayData (i * 4) (toUint8Clamp (item pixel 0)))
                              (i * 4 + 1) (toUint8Clamp (item pixel 1)))
                         (i * 4 + 2) (toUint8Clamp (item pixel 2)))
                    (i * 4 + 3) (toUint8Clamp (item pixel 3)) !! idx =
               displayData !! idx).
    { intros idx Hidx. rewrite !put_lookup_ne by lia. reflexivity. }
    split.
    + intros idx Hidx. rewrite Hlow by lia. now apply Hput.
    + intros j Hj. destruct (Z.eq_dec j i) as [->|Hne]; [|apply Hpix; lia].
      exists pixel. split; [exact Ep|].
      rewrite !Hlow by lia.
      replace (4 * i) with (i * 4) by lia.
      split; [|split; [|split]].
      * rewrite !put_lookup_ne by lia. apply put_lookup_eq. lia.
      * rewrite !put_lookup_ne by lia. apply put_lookup_eq.
        rewrite put_length. lia.
      * rewrite !put_lookup_ne by lia. apply put_lookup_eq.
        rewrite !put_length. lia.
      * apply put_lookup_eq. rewrite !put_length. lia.
Qed.

Lemma parse_loop_throw (info : TgaInfo) (imageData : list byte)
    (colorMap : option (list byte)) (n : nat) :
  forall (i : Z) (displayData : list byte) (e : error),
    parse_loop info imageData colorMap n i displayData = Throw e ->
    exists j : Z, i <= j < i + Z.of_nat n /\
                  getPixel info imageData colorMap j = Throw e.
Proof.
  induction n as [|n IH]; intros i displayData e; cbn [parse_loop];
    [discriminate|].
  destruct (getPixel info imageData colorMap i) as [pixel| |] eqn:Ep;
    cbn [mbind outcome_bind]; try discriminate.
  - intros H. apply IH in H. destruct H as (j & Hj & H).
    exists j. split; [lia|assumption].
  - intros [= <-]. exists i. split; [lia|assumption].
Qed.

(** X13: whenever [parseImageData] returns, the buffer has four bytes per
    pixel, and the four bytes of pixel [j] (in storage order, no rows are
    flipped) are the red, green, blue and alpha that [getPixel] gives for
    [j], each clamped to a byte with [undefined] stored as 0. *)
Theorem parseImageData_pixels (info : TgaInfo) (imageData : list byte)
    (colorMap : option (list byte)) (out : list byte) :
  parseImageData info imageData colorMap = Ok out ->
  Z.of_nat (length out) = pixelCount info * 4 /\
  forall j : Z, 0 <= j < pixelCount info ->
    exists pixel : list jsval,
      getPixel info imageData colorMap j = Ok pixel /\
      out !! Z.to_nat (4 * j) = Some (toUint8Clamp (item pixel 0)) /\
      out !! Z.to_nat (4 * j + 1) = Some (toUint8Clamp (item pixel 1)) /\
      out !! Z.to_nat (4 * j + 2) = Some (toUint8Clamp (item pixel 2)) /\
      out !! Z.to_nat (4 * j + 3) = Some (toUint8Clamp (item pixel 3)).
Proof.
  unfold parseImageData. intros H.
  destruct (new_array _) as [d| |] eqn:En; cbn [mbind outcome_bind] in H;
    try discriminate.
  apply new_array_length in En.
  pose proof (parse_loop_length _ _ _ _ _ _ _ H) as Hl.
  split; [lia|].
  intros j Hj.
  apply (parse_loop_pixels info imageData colorMap
           (Z.to_nat (pixelCount info)) 0 d out); lia || assumption.
Qed.

Lemma parseImageData_pixels_witness :
  parseImageData grey16_info [x80; x40] None = Ok [x80; x80; x80; x40] /\
  Z.of_nat (length [x80; x80; x80; x40]) = pixelCount grey16_info * 4.
Proof.
  assert (H : parseImageData grey16_info [x80; x40] None = Ok [x80; x80; x80; x40])
    by (vm_compute; reflexivity).
  split; [exact H|].
  exact (proj1 (parseImageData_pixels grey16_info [x80; x40] None _ H)).
Defined.

(** ** Images without pixels and images without a color map *)

(** X14: a buffer of at least 18 bytes whose header has width 0 or height 0
    always decodes, to an image with an empty pixel buffer, whatever the
    image type, the pixel depth and the rest of the buffer are. *)
Theorem empty_image_decodes (data : list byte) :
  18 <= Z.of_nat (length data) ->
  littleEndian data 12 2 = 0 \/ littleEndian data 14 2 = 0 ->
  parseTgaData data =
    Ok {| Image.imageData := [];
          Image.width := littleEndian data 12 2;
          Image.height := littleEndian data 14 2 |}.
Proof.
  intros Hlen Hzero. unfold parseTgaData.
  rewrite readHeader_complete by assumption. cbn [mbind outcome_bind].
  set (h := normalizeEntryDepth (raw_header data)).
  pose proof (normalizeEntryDepth_fields (raw_header data)) as F.
  cbv zeta in F. fold h in F.
  destruct F as (_ & _ & _ & _ & _ & _ & _ & _ & Fw & Fh & _).
  cbn [raw_header width height] in Fw, Fh.
  assert (Hpc : pixelCount (createTgaInfo h) = 0).
  { cbn [createTgaInfo pixelCount]. rewrite Fw, Fh. destruct Hzero as [-> | ->]; lia. }
  destruct (readColorMap _ _ _) as [colorMap p].
  assert (Hr : exists raw p', readImageData data (createTgaInfo h) p = Ok (raw, p')).
  { unfold readImageData. rewrite Hpc. destruct (negb _); [eauto|].
    cbn. eauto. }
  destruct Hr as (raw & p' & ->). cbn [mbind outcome_bind].
  unfold parseImageData. rewrite Hpc. cbn.
  change (width (hdr (createTgaInfo h))) with (width h).
  change (height (hdr (createTgaInfo h))) with (height h).
  now rewrite Fw, Fh.
Qed.

Lemma empty_image_decodes_witness :
  parseTgaData (header_bytes x0a x00 x05 x07 x00 ++ [x81]) =
    Ok {| Image.imageData := []; Image.width := 0; Image.height := 5 |}.
Proof.
  apply (empty_image_decodes (header_bytes x0a x00 x05 x07 x00 ++ [x81]));
    [simpl; lia|left; reflexivity].
Defined.

(** X15: an uncompressed color-mapped image (type 1) with pixels of one or
    two bytes and at least one pixel, whose header says that no color map is
    included, does not decode: the first palette lookup throws on the missing
    color map.  The image has at most as many pixels as the buffer has
    bytes. *)
Theorem missing_color_map_fails (data : list byte) :
  18 <= Z.of_nat (length data) ->
  littleEndian data 1 1 = 0 ->
  littleEndian data 2 1 = 1 ->
  littleEndian data 16 1 = 8 \/ littleEndian data 16 1 = 16 ->
  1 <= littleEndian data 12 2 * littleEndian data 14 2 <= Z.of_nat (length data) ->
  parseTgaData data = Throw NullColorMap.
Proof.
  intros Hlen Hcm Hty Hpd [Hpc _]. unfold parseTgaData.
  rewrite readHeader_complete by assumption. cbn [mbind outcome_bind].
  set (h := normalizeEntryDepth (raw_header data)).
  pose proof (normalizeEntryDepth_fields (raw_header data)) as F.
  cbv zeta in F. fold h in F.
  destruct F as (_ & F2 & F3 & _ & _ & _ & _ & _ & Fw & Fh & Fp & _).
  cbn [raw_header colorMapType imageType width height pixelDepth]
    in F2, F3, Fw, Fh, Fp.
  rewrite Hcm in F2. rewrite Hty in F3.
  unfold readColorMap.
  change (colorMapType (hdr (createTgaInfo h))) with (colorMapType h).
  rewrite F2. cbn [truthy Z.eqb negb].
  unfold readImageData.
  assert (Hrle : isRle (createTgaInfo h) = false)
    by (cbn [createTgaInfo isRle]; rewrite F3; reflexivity).
  rewrite Hrle. cbn [negb mbind outcome_bind].
  unfold parseImageData, new_array.
  assert (Hcount : pixelCount (createTgaInfo h) =
                   littleEndian data 12 2 * littleEndian data 14 2)
    by (cbn [createTgaInfo pixelCount]; now rewrite Fw, Fh).
  rewrite Hcount.
  destruct (Z.ltb_spec (littleEndian data 12 2 * littleEndian data 14 2 * 4) 0);
    [lia|].
  cbn [mbind outcome_bind].
  destruct (Z.to_nat _) as [|n] eqn:En; [lia|].
  rewrite (parse_loop_first_throw _ _ _ _ _ _ NullColorMap); [reflexivity|].
  unfold getPixel.
  assert (Hidx : isIndexed (createTgaInfo h) = true)
    by (cbn [createTgaInfo isIndexed]; rewrite F3; reflexivity).
  assert (Hps : pixelSize (createTgaInfo h) = 1 \/ pixelSize (createTgaInfo h) = 2).
  { cbn [createTgaInfo pixelSize]. rewrite Fp.
    destruct Hpd as [-> | ->]; [left|right]; reflexivity. }
  rewrite Hidx. destruct Hps as [-> | ->]; reflexivity.
Qed.

Lemma missing_color_map_fails_witness :
  parseTgaData (header_bytes x01 x01 x01 x08 x00 ++ [x00]) = Throw NullColorMap.
Proof.
  apply (missing_color_map_fails (header_bytes x01 x01 x01 x08 x00 ++ [x00]));
    [simpl; lia|reflexivity|reflexivity|left; reflexivity
    |split; vm_compute; discriminate].
Defined.

(** ** Uncompressed 24-bit images, end to end *)

Lemma get_app_r (pre l : list byte) (k : Z) :
  0 <= k -> get (pre ++ l) (Z.of_nat (length pre) + k) = get l k.
Proof.
  intros Hk. unfold get.
  destruct (Z.ltb_spec (Z.of_nat (length pre) + k) 0); [lia|].
  destruct (Z.ltb_spec k 0); [lia|].
  rewrite lookup_app_r by lia.
  replace (Z.to_nat (Z.of_nat (length pre) + k) - length pre)%nat
    with (Z.to_nat k) by lia.
  reflexivity.
Qed.

Lemma get_app_l (a b : list byte) (p : Z) :
  p < Z.of_nat (length a) -> get (a ++ b) p = get a p.
Proof.
  intros Hp. unfold get. destruct (Z.ltb_spec p 0); [reflexivity|].
  rewrite lookup_app_l by lia. reflexivity.
Qed.

Lemma put_app_r (done l : list byte) (k : Z) (x : byte) :
  0 <= k -> put (done ++ l) (Z.of_nat (length done) + k) x = done ++ put l k x.
Proof.
  intros Hk. unfold put.
  destruct (Z.ltb_spec (Z.of_nat (length done) + k) 0); [lia|].
  destruct (Z.ltb_spec k 0); [lia|].
  rewrite insert_app_r_alt by lia. do 2 f_equal. lia.
Qed.

Lemma toUint8Clamp_byte (b : byte) : toUint8Clamp (num (b2z b)) = b.
Proof.
  pose proof (b2z_range b). cbn [toUint8Clamp].
  rewrite Z.min_r, Z.max_r by lia. apply byte_of_Z_b2z.
Qed.

Lemma parse_loop_bgr24 (info : TgaInfo) (colorMap : option (list byte)) (n : nat) :
  pixelSize info = 3 ->
  forall (pixels pre done zeros : list byte) (i : nat),
    length pixels = (3 * n)%nat -> length zeros = (4 * n)%nat ->
    length pre = (3 * i)%nat -> length done = (4 * i)%nat ->
    parse_loop info (pre ++ pixels) colorMap n (Z.of_nat i) (done ++ zeros) =
    Ok (done ++ bgr_to_rgba pixels).
Proof.
  intros Hps. induction n as [|n IH]; intros pixels pre done zeros i Hp Hz Hpre Hd.
  - destruct pixels; [|discriminate]. destruct zeros; [|discriminate]. reflexivity.
  - destruct pixels as [|b [|g [|r rest]]]; try (simpl in Hp; lia).
    destruct zeros as [|z0 [|z1 [|z2 [|z3 zs]]]]; try (simpl in Hz; lia).
    cbn [parse_loop]. unfold getPixel. rewrite Hps.
    unfold getColorFrom3ByteEntry. rewrite !get_subarray by lia.
    replace (Z.of_nat i * 3 + 2) with (Z.of_nat (length pre) + 2) by lia.
    replace (Z.of_nat i * 3 + 1) with (Z.of_nat (length pre) + 1) by lia.
    replace (Z.of_nat i * 3 + 0) with (Z.of_nat (length pre) + 0) by lia.
    rewrite !get_app_r by lia.
    change (get (b :: g :: r :: rest) 2) with (num (b2z r)).
    change (get (b :: g :: r :: rest) 1) with (num (b2z g)).
    change (get (b :: g :: r :: rest) 0) with (num (b2z b)).
    cbn [mbind outcome_bind].
    change (item [num (b2z r); num (b2z g); num (b2z b); num 255] 0)
      with (num (b2z r)).
    change (item [num (b2z r); num (b2z g); num (b2z b); num 255] 1)
      with (num (b2z g)).
    change (item [num (b2z r); num (b2z g); num (b2z b); num 255] 2)
      with (num (b2z b)).
    change (item [num (b2z r); num (b2z g); num (b2z b); num 255] 3)
      with (num 255).
    rewrite !toUint8Clamp_byte. change (toUint8Clamp 255) with xff.
    replace (Z.of_nat i * 4) with (Z.of_nat (length done) + 0) by lia.
    rewrite put_app_r by lia.
    replace (Z.of_nat (length done) + 0 + 1) with (Z.of_nat (length done) + 1) by lia.
    replace (Z.of_nat (length done) + 0 + 2) with (Z.of_nat (length done) + 2) by lia.
    replace (Z.of_nat (length done) + 0 + 3) with (Z.of_nat (length done) + 3) by lia.
    rewrite !put_app_r by lia.
    change (put (put (put (put (z0 :: z1 :: z2 :: z3 :: zs) 0 r) 1 g) 2 b) 3 xff)
      with (r :: g :: b :: xff :: zs).
    replace (pre ++ b :: g :: r :: rest) with ((pre ++ [b; g; r]) ++ rest) by reshape.
    replace (done ++ r :: g :: b :: xff :: zs)
      with ((done ++ [r; g; b; xff]) ++ zs) by reshape.
    replace (Z.of_nat i + 1) with (Z.of_nat (S i)) by lia.
    rewrite IH; [| simpl in Hp; lia | simpl in Hz; lia
                 | rewrite length_app; simpl; lia
                 | rewrite length_app; simpl; lia ].
    cbn [bgr_to_rgba]. f_equal. reshape.
Qed.

Lemma littleEndian_app_l (a b : list byte) (n : nat) (s : Z) :
  s + Z.of_nat n <= Z.of_nat (length a) ->
  littleEndian (a ++ b) s n = littleEndian a s n.
Proof.
  intros H. apply littleEndian_same. intros p Hp. apply get_app_l. lia.
Qed.

Lemma raw_header_app (a b : list byte) :
  18 <= Z.of_nat (length a) -> raw_header (a ++ b) = raw_header a.
Proof.
  intros H. unfold raw_header.
  rewrite !littleEndian_app_l by (simpl; lia). reflexivity.
Qed.

(** X16: an uncompressed image without color map with three bytes per pixel
    decodes pixel by pixel.  When the buffer is the 18 header bytes, the
    image id of [idLength] bytes, then [width * height] pixels of three
    bytes (blue, green, red), and whatever follows, the result has the
    header's width and height and the pixels in the same order as red,
    green, blue with alpha 255. *)
Theorem decode_uncompressed_bgr24 (header id pixels trailer : list byte) :
  length header = 18%nat ->
  colorMapType (raw_header header) = 0 ->
  imageType (raw_header header) < 8 ->
  pixelDepth (raw_header header) = 24 ->
  Z.of_nat (length id) = idLength (raw_header header) ->
  Z.of_nat (length pixels) =
    width (raw_header header) * height (raw_header header) * 3 ->
  parseTgaData (header ++ id ++ pixels ++ trailer) =
    Ok {| Image.imageData := bgr_to_rgba pixels;
          Image.width := width (raw_header header);
          Image.height := height (raw_header header) |}.
Proof.
  intros Hh Hcm Hty Hpd Hid Hpx. unfold parseTgaData.
  rewrite readHeader_complete by (rewrite length_app; lia).
  rewrite raw_header_app by lia. cbn [mbind outcome_bind].
  set (h := normalizeEntryDepth (raw_header header)).
  pose proof (normalizeEntryDepth_fields (raw_header header)) as F.
  cbv zeta in F. fold h in F.
  destruct F as (F1 & F2 & F3 & _ & _ & _ & _ & _ & Fw & Fh & Fp & _).
  pose proof (normalized_header_ranges header) as ((_ & _ & Hit & _) & _).
  cbv zeta in Hit. fold h in Hit.
  unfold readColorMap.
  change (colorMapType (hdr (createTgaInfo h))) with (colorMapType h).
  rewrite F2, Hcm. cbn [truthy Z.eqb negb].
  assert (Hrle : isRle (createTgaInfo h) = false).
  { cbn [createTgaInfo isRle]. rewrite sar3_div by lia. rewrite F3 in *.
    rewrite Z.div_small by lia. reflexivity. }
  assert (Hps : pixelSize (createTgaInfo h) = 3)
    by (cbn [createTgaInfo pixelSize]; rewrite Fp, Hpd; reflexivity).
  assert (Hpc : pixelCount (createTgaInfo h) =
                width (raw_header header) * height (raw_header header))
    by (cbn [createTgaInfo pixelCount]; now rewrite Fw, Fh).
  unfold readImageData. rewrite Hrle, Hps, Hpc. cbn [negb].
  rewrite F1, <- Hid.
  replace (header ++ id ++ pixels ++ trailer)
    with ((header ++ id) ++ pixels ++ trailer) by reshape.
  replace (18 + Z.of_nat (length id)) with (Z.of_nat (length (header ++ id)))
    by (rewrite length_app; lia).
  rewrite <- Hpx, subarray_app_middle. cbn [mbind outcome_bind].
  unfold parseImageData, new_array. rewrite Hpc.
  destruct (Z.ltb_spec (width (raw_header header) * height (raw_header header) * 4) 0);
    [lia|].
  cbn [mbind outcome_bind].
  pose proof (parse_loop_bgr24 (createTgaInfo h) None
                (Z.to_nat (width (raw_header header) * height (raw_header header)))
                Hps pixels [] []
                (replicate
                   (Z.to_nat (width (raw_header header) * height (raw_header header) * 4))
                   x00) 0%nat) as Hloop.
  cbn [app] in Hloop. change (Z.of_nat 0) with 0 in Hloop.
  rewrite Hloop; [|lia|rewrite length_replicate; lia
                                     |reflexivity|reflexivity].
  change (width (hdr (createTgaInfo h))) with (width h).
  change (height (hdr (createTgaInfo h))) with (height h).
  now rewrite Fw, Fh.
Qed.

Lemma decode_uncompressed_bgr24_witness :
  parseTgaData ([x02; x00; x02; x00; x00; x00; x00; x00; x00; x00; x00; x00;
                 x02; x00; x01; x00; x18; x00] ++ [x41; x42]
                ++ [x10; x20; x30; x01; x02; x03] ++ [x99]) =
    Ok {| Image.imageData := [x30; x20; x10; xff; x03; x02; x01; xff];
          Image.width := 2; Image.height := 1 |}.
Proof.
  apply (decode_uncompressed_bgr24
           [x02; x00; x02; x00; x00; x00; x00; x00; x00; x00; x00; x00;
            x02; x00; x01; x00; x18; x00] [x41; x42]
           [x10; x20; x30; x01; x02; x03] [x99]);
    reflexivity.
Defined.

(** ** The attribute bit of a 5-5-5 entry *)

Lemma channel5_mod (w shift : Z) :
  0 <= shift <= 10 -> channel5 (w mod 32768) shift = channel5 w shift.
Proof.
  intros Hs. unfold channel5. apply Z.bits_inj'. intros k Hk.
  rewrite !Z.land_spec, !Z.shiftr_spec by assumption.
  change 31 with (Z.ones 5). rewrite Z.testbit_ones_nonneg by lia.
  destruct (Z.ltb_spec k 5); [|now rewrite !andb_false_r].
  change 32768 with (2 ^ 15). rewrite Z.mod_pow2_bits_low by lia. reflexivity.
Qed.

Lemma word_mod_32768 (lo hi : Z) :
  0 <= lo < 256 -> 0 <= hi ->
  (lo + 256 * hi) mod 32768 = lo + 256 * (hi mod 128).
Proof.
  intros Hlo Hhi. symmetry.
  pose proof (Z.mod_pos_bound hi 128 ltac:(lia)).
  apply (Z.mod_unique_pos _ _ (hi / 128)); [lia|].
  pose proof (Z.div_mod hi 128 ltac:(lia)). lia.
Qed.

(** X17: the top bit of a two-byte color entry (the attribute bit, bit 7 of
    the second byte) does not influence the color: two entries whose second
    bytes agree in their low seven bits give the same red, green, blue and
    alpha. *)
Theorem attribute_bit_ignored (lo hi hi' : byte) :
  Z.land (b2z hi) 127 = Z.land (b2z hi') 127 ->
  getColorFrom2ByteEntry [lo; hi] = getColorFrom2ByteEntry [lo; hi'].
Proof.
  intros H.
  rewrite (getColorFrom2ByteEntry_555 [lo; hi] lo hi) by reflexivity.
  rewrite (getColorFrom2ByteEntry_555 [lo; hi'] lo hi') by reflexivity.
  cbv zeta.
  pose proof (b2z_range lo). pose proof (b2z_range hi). pose proof (b2z_range hi').
  change 127 with (Z.ones 7) in H. rewrite !Z.land_ones in H by lia.
  change (2 ^ 7) with 128 in H.
  assert (E : forall s, 0 <= s <= 10 ->
                channel5 (b2z lo + 256 * b2z hi) s =
                channel5 (b2z lo + 256 * b2z hi') s).
  { intros s Hs.
    rewrite <- (channel5_mod (b2z lo + 256 * b2z hi)) by assumption.
    rewrite <- (channel5_mod (b2z lo + 256 * b2z hi')) by assumption.
    rewrite !word_mod_32768 by lia. now rewrite H. }
  rewrite (E 10), (E 5), (E 0) by lia. reflexivity.
Qed.

Lemma attribute_bit_ignored_witness :
  Z.land (b2z x7c) 127 = Z.land (b2z xfc) 127 /\
  getColorFrom2ByteEntry [x1f; x7c] = getColorFrom2ByteEntry [x1f; xfc].
Proof.
  split; [reflexivity|].
  apply (attribute_bit_ignored x1f x7c xfc). reflexivity.
Defined.

(** ** Bytes behind the image *)

Lemma subarray_app_l (a extra : list byte) (s e : Z) :
  0 <= s -> 0 <= e <= Z.of_nat (length a) ->
  subarray (a ++ extra) s e = subarray a s e.
Proof.
  intros Hs He. unfold subarray, clampIndex. cbn [toInteger].
  destruct (Z.ltb_spec s 0); [lia|]. destruct (Z.ltb_spec e 0); [lia|].
  rewrite length_app, Nat2Z.inj_add.
  rewrite (Z.min_l e), (Z.min_l e) by lia.
  destruct (Z.le_gt_cases s (Z.of_nat (length a))) as [Hle|Hgt].
  - rewrite !(Z.min_l s) by lia.
    rewrite drop_app_le by lia. apply take_app_le.
    rewrite length_drop. lia.
  - rewrite (Z.min_r s (Z.of_nat (length a))) by lia.
    assert (E1 : Z.to_nat (Z.max (e - Z.min s (Z.of_nat (length a) +
                                               Z.of_nat (length extra))) 0) = 0%nat) by lia.
    assert (E2 : Z.to_nat (Z.max (e - Z.of_nat (length a)) 0) = 0%nat) by lia.
    rewrite E1, E2. reflexivity.
Qed.

(** X18: for an image that is not run-length encoded, bytes that follow the
    pixel data are not read.  When the buffer holds the header, the image
    id, the color map (if the header includes one) and all the pixel bytes,
    appending bytes to it does not change the result of the decoder. *)
Theorem trailing_bytes_ignored (data extra : list byte) (h : TgaHeader) (p : Z) :
  readHeader data 0 = Ok (h, p) ->
  isRle (createTgaInfo h) = false ->
  18 + idLength h
  + (if colorMapType h =? 0 then 0
     else colorMapLength h * colorMapEntrySize (createTgaInfo h))
  + pixelCount (createTgaInfo h) * pixelSize (createTgaInfo h)
    <= Z.of_nat (length data) ->
  parseTgaData (data ++ extra) = parseTgaData data.
Proof.
  intros Hh Hrle Hfit. apply readHeader_inv in Hh. destruct Hh as (Hlen & -> & _).
  pose proof (normalized_header_ranges data)
    as ((Hid & _ & _ & _ & Hcl & _) & (Hps & Hce & _ & Hpc)).
  cbv zeta in Hid, Hcl, Hps, Hce, Hpc.
  unfold parseTgaData.
  rewrite (readHeader_complete data Hlen).
  rewrite readHeader_complete by (rewrite length_app; lia).
  rewrite raw_header_app by assumption.
  set (h := normalizeEntryDepth (raw_header data)) in *.
  cbn [mbind outcome_bind].
  assert (Hcm : 0 <= colorMapLength h * colorMapEntrySize (createTgaInfo h))
    by (apply Z.mul_nonneg_nonneg; lia).
  assert (Hpx : 0 <= pixelCount (createTgaInfo h) * pixelSize (createTgaInfo h))
    by (apply Z.mul_nonneg_nonneg; lia).
  assert (Ec : readColorMap (data ++ extra) (createTgaInfo h) (18 + idLength h) =
               readColorMap data (createTgaInfo h) (18 + idLength h)).
  { unfold readColorMap, truthy.
    change (colorMapType (hdr (createTgaInfo h))) with (colorMapType h).
    change (colorMapLength (hdr (createTgaInfo h))) with (colorMapLength h).
    change (sar (colorMapEntryDepth (hdr (createTgaInfo h))) 3)
      with (colorMapEntrySize (createTgaInfo h)).
    destruct (colorMapType h =? 0); cbn [negb]; [reflexivity|].
    rewrite subarray_app_l by lia. reflexivity. }
  rewrite Ec.
  destruct (readColorMap data (createTgaInfo h) (18 + idLength h))
    as [colorMap p'] eqn:Er.
  assert (Hp' : p' = 18 + idLength h
                     + (if colorMapType h =? 0 then 0
                        else colorMapLength h * colorMapEntrySize (createTgaInfo h))).
  { unfold readColorMap, truthy in Er.
    change (colorMapType (hdr (createTgaInfo h))) with (colorMapType h) in Er.
    destruct (colorMapType h =? 0); cbn [negb] in Er; injection Er as _ <-;
      [lia|reflexivity]. }
  assert (Ei : readImageData (data ++ extra) (createTgaInfo h) p' =
               readImageData data (createTgaInfo h) p').
  { unfold readImageData. rewrite Hrle. cbn [negb].
    rewrite subarray_app_l; [reflexivity| |];
      destruct (colorMapType h =? 0); lia. }
  rewrite Ei. reflexivity.
Qed.

Lemma trailing_bytes_ignored_witness :
  parseTgaData ((indexed_header_bytes x00 x00 x01 ++ [xaa; xbb; xcc; x00])
                ++ [x01; x02; x03]) =
  parseTgaData (indexed_header_bytes x00 x00 x01 ++ [xaa; xbb; xcc; x00]).
Proof.
  assert (Hr : readHeader (indexed_header_bytes x00 x00 x01 ++ [xaa; xbb; xcc; x00]) 0 =
               Ok ({| idLength := 0; colorMapType := 1; imageType := 1;
                      colorMapStart := 0; colorMapLength := 1;
                      colorMapEntryDepth := 24;
                      xOrigin := 0; yOrigin := 0; width := 1; height := 1;
                      pixelDepth := 8; descriptor := 0 |}, 18))
    by (vm_compute; reflexivity).
  apply (trailing_bytes_ignored _ [x01; x02; x03] _ _ Hr);
    [reflexivity|vm_compute; discriminate].
Defined.

(** ** The errors of the decoder *)

Lemma getColorMapPixel_throw (info : TgaInfo) (colorMap : option (list byte))
    (index : jsval) (e : error) :
  getColorMapPixel info colorMap index = Throw e ->
  e = NullColorMap \/
  e = UnsupportedColorMapEntrySize (colorMapEntrySize info).
Proof.
  unfold getColorMapPixel. destruct colorMap; [|intros [= <-]; now left].
  destruct (colorMapEntrySize info) as [|[[[]|[]|]|[[]|[]|]|]|];
    try discriminate; intros [= <-]; now right.
Qed.

Lemma getPixel_throw (info : TgaInfo) (imageData : list byte)
    (colorMap : option (list byte)) (index : Z) (e : error) :
  getPixel info imageData colorMap index = Throw e ->
  e = NullColorMap \/
  e = UnsupportedColorMapEntrySize (colorMapEntrySize info) \/
  e = UnsupportedPixelSize (pixelSize info) \/
  e = UnsupportedPixelSizeTrueColor 1.
Proof.
  unfold getPixel.
  destruct (pixelSize info) as [|[[[]|[]|]|[[]|[]|]|]|];
    destruct (isIndexed info), (isGrey info); try discriminate;
    try (intros [= <-]; tauto);
    intros H; apply getColorMapPixel_throw in H; tauto.
Qed.

(** X19: the errors of [parseTgaData] on an uncompressed image that has at
    most as many pixels as the buffer has bytes.  Once the header is read,
    the decoder throws nothing but the error of the missing color map or one
    of the unsupported-size errors, with the size taken from the header; in
    particular neither the not-enough-data error of [readItem] nor the range
    error of [set]. *)
Theorem decode_errors (data : list byte) (h : TgaHeader) (p : Z) (e : error) :
  readHeader data 0 = Ok (h, p) ->
  isRle (createTgaInfo h) = false ->
  pixelCount (createTgaInfo h) <= Z.of_nat (length data) ->
  parseTgaData data = Throw e ->
  e = NullColorMap \/
  e = UnsupportedColorMapEntrySize (colorMapEntrySize (createTgaInfo h)) \/
  e = UnsupportedPixelSize (pixelSize (createTgaInfo h)) \/
  e = UnsupportedPixelSizeTrueColor 1.
Proof.
  intros Hh Hrle Hbound. unfold parseTgaData. rewrite Hh.
  cbn [mbind outcome_bind].
  apply readHeader_inv in Hh. destruct Hh as (_ & -> & _).
  set (h := normalizeEntryDepth (raw_header data)) in *.
  pose proof (normalized_header_ranges data) as (_ & (_ & _ & _ & Hpc)).
  cbv zeta in Hpc. fold h in Hpc.
  destruct (readColorMap _ _ _) as [colorMap p'].
  unfold readImageData. rewrite Hrle. cbn [negb mbind outcome_bind].
  destruct (parseImageData (createTgaInfo h) _ colorMap) as [d| |] eqn:Ed;
    cbn [mbind outcome_bind]; try discriminate.
  intros [= <-].
  unfold parseImageData, new_array in Ed.
  destruct (Z.ltb_spec (pixelCount (createTgaInfo h) * 4) 0); [lia|].
  cbn [mbind outcome_bind] in Ed.
  apply parse_loop_throw in Ed. destruct Ed as (j & _ & Ed).
  now apply getPixel_throw in Ed.
Qed.

Lemma decode_errors_witness :
  readHeader (header_bytes x00 x01 x01 x08 x00 ++ [x10]) 0 =
    Ok ({| idLength := 0; colorMapType := 0; imageType := 0;
           colorMapStart := 0; colorMapLength := 0; colorMapEntryDepth := 0;
           xOrigin := 0; yOrigin := 0; width := 1; height := 1;
           pixelDepth := 8; descriptor := 0 |}, 18) /\
  parseTgaData (header_bytes x00 x01 x01 x08 x00 ++ [x10]) =
    Throw (UnsupportedPixelSizeTrueColor 1).
Proof.
  assert (Hr : readHeader (header_bytes x00 x01 x01 x08 x00 ++ [x10]) 0 =
               Ok ({| idLength := 0; colorMapType := 0; imageType := 0;
                      colorMapStart := 0; colorMapLength := 0;
                      colorMapEntryDepth := 0;
                      xOrigin := 0; yOrigin := 0; width := 1; height := 1;
                      pixelDepth := 8; descriptor := 0 |}, 18))
    by (vm_compute; reflexivity).
  assert (Ht : parseTgaData (header_bytes x00 x01 x01 x08 x00 ++ [x10]) =
               Throw (UnsupportedPixelSizeTrueColor 1))
    by (vm_compute; reflexivity).
  split; [exact Hr|].
  destruct (decode_errors _ _ _ _ Hr eq_refl ltac:(vm_compute; discriminate) Ht)
    as [E|[E|[E|E]]]; try discriminate E.
  exact Ht.
Defined.

(** ** A run-length image without packet bytes *)

Lemma get_past_end (a : list byte) (i : Z) :
  Z.of_nat (length a) <= i -> get a i = undefined.
Proof.
  intros Hi. unfold get. destruct (i <? 0); [reflexivity|].
  rewrite (proj2 (lookup_ge_None a (Z.to_nat i))); [reflexivity|lia].
Qed.

Lemma copy_bytes_past_end (data : list byte) (len n : nat) :
  forall current pointer : Z,
    Z.of_nat (length data) <= pointer ->
    copy_bytes data n (replicate len x00) current pointer =
    (replicate len x00, current + Z.of_nat n, pointer + Z.of_nat n).
Proof.
  induction n as [|n IH]; intros current pointer Hp; cbn [copy_bytes].
  - f_equal; [f_equal|]; lia.
  - rewrite get_past_end by assumption. cbn [toUint8].
    unfold put. destruct (current <? 0); rewrite ?insert_replicate;
      rewrite IH by lia; (f_equal; [f_equal|]; lia).
Qed.

Lemma rle_loop_past_end (data : list byte) (pixelSize : Z) (len m : nat) :
  1 <= pixelSize ->
  forall (fuel j : nat) (pointer : Z),
    (m <= fuel)%nat -> Z.of_nat (length data) <= pointer ->
    rle_loop fuel data pixelSize (Z.of_nat (j + m) * pixelSize)
      (replicate len x00) (Z.of_nat j * pixelSize) pointer =
    Ok (replicate len x00, pointer + Z.of_nat m * (1 + pixelSize)).
Proof.
  intros Hps. induction m as [|m IH]; intros fuel j pointer Hf Hp.
  - rewrite rle_loop_done by (rewrite Nat.add_0_r; lia). do 2 f_equal. lia.
  - destruct fuel as [|fuel]; [lia|]. cbn [rle_loop].
    destruct (Z.ltb_spec (Z.of_nat j * pixelSize) (Z.of_nat (j + S m) * pixelSize));
      [|nia].
    rewrite get_past_end by assumption.
    change (sar (band undefined 128) 7 =? 1) with false. cbv iota.
    change (band undefined 127 + 1) with 1. rewrite Z.mul_1_l.
    rewrite copy_bytes_past_end by lia.
    replace (Z.of_nat j * pixelSize + Z.of_nat (Z.to_nat pixelSize))
      with (Z.of_nat (S j) * pixelSize) by lia.
    replace (j + S m)%nat with (S j + m)%nat by lia.
    rewrite IH by lia. do 2 f_equal. lia.
Qed.

(** X20: when the pointer is at or behind the end of the buffer and the
    image has no more raw bytes than the buffer has bytes, the run-length
    path does not fail.  Every missing packet header is read as a raw packet
    of one pixel whose missing bytes are stored as 0, so the call returns a
    buffer of [pixelCount * pixelSize] zero bytes, and the pointer has moved
    on by one header byte and one pixel for every pixel of the image. *)
Theorem rle_without_packets_is_zero (data : list byte) (info : TgaInfo) (pointer : Z) :
  isRle info = true -> 1 <= pixelSize info -> 0 <= pixelCount info ->
  pixelCount info * pixelSize info <= Z.of_nat (length data) ->
  Z.of_nat (length data) <= pointer ->
  readImageData data info pointer =
    Ok (replicate (Z.to_nat (pixelCount info * pixelSize info)) x00,
        pointer + pixelCount info * (1 + pixelSize info)).
Proof.
  intros Hrle Hps Hpc _ Hp. unfold readImageData. rewrite Hrle. cbn [negb].
  unfold new_array.
  destruct (Z.ltb_spec (pixelCount info * pixelSize info) 0); [nia|].
  cbn [mbind outcome_bind].
  pose proof (rle_loop_past_end data (pixelSize info)
                (Z.to_nat (pixelCount info * pixelSize info))
                (Z.to_nat (pixelCount info)) Hps
                (Z.to_nat (pixelCount info * pixelSize info)) 0 pointer) as Hloop.
  cbn [Nat.add] in Hloop. change (Z.of_nat 0) with 0 in Hloop.
  rewrite Z2Nat.id, Z.mul_0_l in Hloop by lia.
  apply Hloop; [nia|assumption].
Qed.

Lemma rle_without_packets_is_zero_witness :
  readImageData [x00; x00; x00] (rle_grey8_info 3) 3 = Ok ([x00; x00; x00], 9).
Proof.
  apply (rle_without_packets_is_zero [x00; x00; x00] (rle_grey8_info 3) 3);
    [reflexivity|vm_compute; discriminate|vm_compute; discriminate
    |vm_compute; discriminate|simpl; lia].
Defined.

(** ** Header fields that the decoder does not look at *)

Section SameFormat.

Variables a b : TgaInfo.
Hypothesis Hab : same_format a b.

Lemma readColorMap_same_format (data : list byte) (pointer : Z) :
  readColorMap data a pointer = readColorMap data b pointer.
Proof.
  destruct Hab as (_ & _ & _ & _ & _ & _ & _ & _ & Ht & Hl & Hd & _).
  unfold readColorMap. now rewrite Ht, Hl, Hd.
Qed.

Lemma readImageData_same_format (data : list byte) (pointer : Z) :
  readImageData data a pointer = readImageData data b pointer.
Proof.
  destruct Hab as (_ & _ & Hr & Hs & Hc & _).
  unfold readImageData. now rewrite Hr, Hs, Hc.
Qed.

Lemma getPixel_same_format (imageData : list byte) (colorMap : option (list byte))
    (index : Z) :
  getPixel a imageData colorMap index = getPixel b imageData colorMap index.
Proof.
  destruct Hab as (Hi & Hg & _ & Hs & _ & He & Ha & _).
  unfold getPixel, getColorMapPixel. now rewrite Hi, Hg, Hs, He, Ha.
Qed.

Lemma parse_loop_same_format (imageData : list byte)
    (colorMap : option (list byte)) (n : nat) :
  forall (i : Z) (displayData : list byte),
    parse_loop a imageData colorMap n i displayData =
    parse_loop b imageData colorMap n i displayData.
Proof.
  induction n as [|n IH]; intros i displayData; cbn [parse_loop]; [reflexivity|].
  rewrite getPixel_same_format.
  destruct (getPixel b imageData colorMap i); cbn [mbind outcome_bind];
    [apply IH|reflexivity|reflexivity].
Qed.

Lemma parseImageData_same_format (imageData : list byte)
    (colorMap : option (list byte)) :
  parseImageData a imageData colorMap = parseImageData b imageData colorMap.
Proof.
  unfold parseImageData.
  destruct Hab as (_ & _ & _ & _ & Hc & _). rewrite Hc.
  destruct (new_array _) as [d| |]; cbn [mbind outcome_bind]; try reflexivity.
  apply parse_loop_same_format.
Qed.

End SameFormat.

Lemma readColorMap_pointer (data : list byte) (info : TgaInfo) (pointer : Z) :
  0 <= colorMapLength (hdr info) ->
  0 <= sar (colorMapEntryDepth (hdr info)) 3 ->
  pointer <= snd (readColorMap data info pointer).
Proof.
  intros Hl Hs. unfold readColorMap. destruct (negb _); cbn [snd]; [lia|].
  assert (0 <= colorMapLength (hdr info) * sar (colorMapEntryDepth (hdr info)) 3)
    by (apply Z.mul_nonneg_nonneg; lia).
  lia.
Qed.

Lemma band15_land (x : Z) : 0 <= x < 256 -> band x 15 = Z.land x 15.
Proof.
  intros Hx. unfold band, toInt32. now rewrite (wrap32_small x) by lia.
Qed.

(** X21: the x and y origin of the header and the upper four bits of the
    descriptor byte (the pixel-ordering bits among them) do not influence
    the result: two buffers of the same length that differ at most in the
    bytes 8 to 11, and in byte 17 outside its low four bits, decode to the
    same result.  In particular no image is flipped. *)
Theorem origin_and_ordering_ignored (data data' : list byte) :
  length data = length data' ->
  (forall i : nat, (i < 8 \/ 11 < i)%nat -> i <> 17%nat -> data !! i = data' !! i) ->
  Z.land (littleEndian data 17 1) 15 = Z.land (littleEndian data' 17 1) 15 ->
  parseTgaData data = parseTgaData data'.
Proof.
  intros Hlen Hsame Hdesc. unfold parseTgaData.
  destruct (Z.lt_ge_cases (Z.of_nat (length data)) 18) as [Hlt|Hge].
  - destruct (readHeader_truncated data Hlt) as (s & e & Hf & ->).
    assert (Hlt' : Z.of_nat (length data') < 18) by lia.
    destruct (readHeader_truncated data' Hlt') as (s' & e' & Hf' & ->).
    rewrite <- Hlen, Hf in Hf'. now injection Hf' as <- <-.
  - rewrite (readHeader_complete data Hge).
    rewrite (readHeader_complete data') by lia.
    cbn [mbind outcome_bind].
    set (h := normalizeEntryDepth (raw_header data)).
    set (h' := normalizeEntryDepth (raw_header data')).
    assert (Hg : forall p : Z, 0 <= p -> p < 8 \/ 11 < p -> p <> 17 ->
                               get data p = get data' p).
    { intros p Hp Hr H17. unfold get. destruct (p <? 0); [reflexivity|].
      rewrite (Hsame (Z.to_nat p)) by lia. reflexivity. }
    assert (Hle : forall (n : nat) (s : Z),
               0 <= s -> s + Z.of_nat n <= 8 \/ 12 <= s ->
               s + Z.of_nat n <= 17 ->
               littleEndian data s n = littleEndian data' s n).
    { intros n s Hs Hr H17. apply littleEndian_same. intros p Hp.
      apply Hg; lia. }
    pose proof (normalizeEntryDepth_fields (raw_header data)) as F.
    pose proof (normalizeEntryDepth_fields (raw_header data')) as F'.
    cbv zeta in F, F'. fold h in F. fold h' in F'.
    destruct F as (F1 & F2 & F3 & _ & F5 & F6 & _ & _ & F9 & F10 & F11 & F12).
    destruct F' as (F1' & F2' & F3' & _ & F5' & F6' & _ & _ & F9' & F10' & F11' & F12').
    cbn [raw_header idLength colorMapType imageType colorMapLength
         colorMapEntryDepth width height pixelDepth descriptor]
      in F1, F2, F3, F5, F6, F9, F10, F11, F12,
         F1', F2', F3', F5', F6', F9', F10', F11', F12'.
    rewrite <- (Hle 1%nat 0) in F1' by (simpl; lia).
    rewrite <- (Hle 1%nat 1) in F2' by (simpl; lia).
    rewrite <- (Hle 1%nat 2) in F3' by (simpl; lia).
    rewrite <- (Hle 2%nat 5) in F5' by (simpl; lia).
    rewrite <- (Hle 1%nat 7) in F6' by (simpl; lia).
    rewrite <- (Hle 2%nat 12) in F9' by (simpl; lia).
    rewrite <- (Hle 2%nat 14) in F10' by (simpl; lia).
    rewrite <- (Hle 1%nat 16) in F11' by (simpl; lia).
    assert (Hfmt : same_format (createTgaInfo h') (createTgaInfo h)).
    { unfold same_format.
      cbn [createTgaInfo isIndexed isGrey isRle pixelSize pixelCount
           colorMapEntrySize alphaDepth hdr].
      rewrite F1, F2, F3, F5, F6, F9, F10, F11, F12,
        F1', F2', F3', F5', F6', F9', F10', F11', F12'.
      rewrite !band15_land by apply littleEndian_1_range.
      rewrite Hdesc. repeat split; reflexivity. }
    assert (Hagree : agree_from 18 data' data).
    { split; [congruence|]. intros i Hi. symmetry. apply Hsame; lia. }
    assert (Hid : idLength h' = idLength h) by congruence.
    rewrite Hid.
    pose proof (normalized_header_ranges data) as ((Hidr & _ & _ & _ & Hcl & _)
                                                   & (Hps & Hce & _ & Hpc)).
    cbv zeta in Hidr, Hcl, Hps, Hce, Hpc. fold h in Hidr, Hcl, Hps, Hce, Hpc.
    rewrite (readColorMap_same_format _ _ Hfmt).
    rewrite (readColorMap_agree 18 data' data) by (assumption || lia).
    destruct (readColorMap data (createTgaInfo h) (18 + idLength h))
      as [colorMap p] eqn:Ec.
    assert (Hp : 18 <= p).
    { pose proof (readColorMap_pointer data (createTgaInfo h) (18 + idLength h)
                    (proj1 Hcl) (proj1 Hce)) as Hmono.
      rewrite Ec in Hmono. cbn [snd] in Hmono. lia. }
    rewrite (readImageData_same_format _ _ Hfmt).
    rewrite (readImageData_agree 18 data' data) by (assumption || lia).
    destruct (readImageData data (createTgaInfo h) p) as [[raw p']| |];
      cbn [mbind outcome_bind]; try reflexivity.
    rewrite (parseImageData_same_format _ _ Hfmt).
    destruct (parseImageData (createTgaInfo h) raw colorMap);
      cbn [mbind outcome_bind]; try reflexivity.
    destruct Hfmt as (_ & _ & _ & _ & _ & _ & _ & _ & _ & _ & _ & Hw & Hh).
    now rewrite Hw, Hh.
Qed.

Lemma origin_and_ordering_ignored_witness :
  parseTgaData ([x00; x00; x02; x00; x00; x00; x00; x00; x00; x00; x00; x00;
                 x01; x00; x02; x00; x18; x00]
                ++ [x10; x20; x30; x01; x02; x03]) =
  parseTgaData ([x00; x00; x02; x00; x00; x00; x00; x00; x05; x00; x07; x01;
                 x01; x00; x02; x00; x18; x20]
                ++ [x10; x20; x30; x01; x02; x03]).
Proof.
  apply (origin_and_ordering_ignored
           ([x00; x00; x02; x00; x00; x00; x00; x00; x00; x00; x00; x00;
             x01; x00; x02; x00; x18; x00] ++ [x10; x20; x30; x01; x02; x03])
           ([x00; x00; x02; x00; x00; x00; x00; x00; x05; x00; x07; x01;
             x01; x00; x02; x00; x18; x20] ++ [x10; x20; x30; x01; x02; x03]));
    [reflexivity| |reflexivity].
  intros i Hr H17.
  do 8 (destruct i as [|i]; [reflexivity|]).
  do 4 (destruct i as [|i]; [lia|]).
  do 5 (destruct i as [|i]; [reflexivity|]).
  destruct i as [|i]; [congruence|]. reflexivity.
Defined.
